(** * Verification of the round orchestration of AutoWechatCrawler

    Shallow embedding of
    - [src/src/database/account_status_manager.py] (tables
      [fx_account_status], [fx_compensation_history], [fx_crawl_exception]),
    - [src/loop_crawler.py] ([_run_cmd], [_is_full_success], test-mode flag),
    - [src/src/core/enhanced_proxy_manager.py] (the short-lived proxy lease).

    The store is MySQL reached through pymysql with [autocommit=True]
    ([database_manager.py]); every SQL statement is modelled as a function
    on the rows of its table.  MySQL evaluates the assignments of a
    single-table [UPDATE ... SET] from left to right, each later expression
    reading the row as already updated by the earlier ones; the models of
    the [UPDATE] statements below follow that order.

    Time is an integer number of seconds; a calendar date is a day number
    [date_of now = now / 86400].  Persistence errors (lost connection,
    failed statement) are outside the model: every statement succeeds. *)

From Stdlib Require Import Sorting.Mergesort Sorting.Permutation Sorting.Sorted.
From Stdlib Require Import String Ascii ZArith List Bool Lia.
Import ListNotations.
Open Scope Z_scope.
Open Scope string_scope.

(* ================================================================== *)
(** ** Data model *)

(** Values of [fx_account_status.status] written by the code. *)
Inductive Status :=
| PENDING | PROCESSING | COMPLETED | EXCEPTION | FAILED | RETRYING | ACTIVE.

Definition status_eqb (a b : Status) : bool :=
  match a, b with
  | PENDING, PENDING | PROCESSING, PROCESSING | COMPLETED, COMPLETED
  | EXCEPTION, EXCEPTION | FAILED, FAILED | RETRYING, RETRYING
  | ACTIVE, ACTIVE => true
  | _, _ => false
  end.

Definition status_str (s : Status) : string :=
  match s with
  | PENDING => "PENDING" | PROCESSING => "PROCESSING"
  | COMPLETED => "COMPLETED" | EXCEPTION => "EXCEPTION"
  | FAILED => "FAILED" | RETRYING => "RETRYING" | ACTIVE => "ACTIVE"
  end.

(** [status IN ('EXCEPTION', 'FAILED')] *)
Definition is_failed_status (s : Status) : bool :=
  status_eqb s EXCEPTION || status_eqb s FAILED.

(** Values of [fx_compensation_history.compensation_status]. *)
Inductive CompStatus := CPENDING | CCOMPLETED | CFAILED.

Definition comp_status_eqb (a b : CompStatus) : bool :=
  match a, b with
  | CPENDING, CPENDING | CCOMPLETED, CCOMPLETED | CFAILED, CFAILED => true
  | _, _ => false
  end.

(** A row of [fx_account_status] (nullable columns as [option]). *)
Record AccountRow := {
  account_id : string;
  account_name : string;
  status : Status;
  retry_count : Z;
  last_exception_msg : option string;
  next_retry_time : option Z;
  compensation_priority : Z;
  consecutive_failures : option Z;
  last_failed_date : option Z;
  failed_reason_backup : option string;
  last_update_time : Z;
  update_time : Z
}.

(** A row of [fx_compensation_history]; unique key
    [(account_id, failed_date)] (the target of ON DUPLICATE KEY UPDATE). *)
Record CompRow := {
  c_account_id : string;
  c_account_name : string;
  failed_date : Z;
  failure_reason : option string;
  compensation_status : CompStatus;
  compensation_date : option Z;
  c_update_time : Z
}.

(** A row of [fx_crawl_exception]. *)
Inductive LedgerStatus := finished | unfinished.

Record LedgerRow := {
  finished_date : Z;
  l_status : LedgerStatus
}.

(** The three tables. *)
Record DB := {
  accounts : list AccountRow;
  history : list CompRow;
  ledger : list LedgerRow
}.

Definition date_of (now : Z) : Z := now / 86400.

(* ================================================================== *)
(** ** AccountStatusManager *)

(** [_record_failed_accounts_for_compensation]: the rows selected by
    [WHERE status IN ('EXCEPTION','FAILED')], one INSERT ... ON DUPLICATE
    KEY UPDATE each (executemany, in the order of the SELECT). *)
Definition fallback_reason (r : AccountRow) : string :=
  match r.(last_exception_msg) with
  | Some m => if String.eqb m "" then "状态异常: " ++ status_str r.(status) else m
  | None => "状态异常: " ++ status_str r.(status)
  end.

Definition same_key (id : string) (d : Z) (c : CompRow) : bool :=
  String.eqb c.(c_account_id) id && Z.eqb c.(failed_date) d.

(** [INSERT INTO fx_compensation_history (account_id, account_name,
    failed_date, failure_reason, compensation_status) VALUES (..,'PENDING')
    ON DUPLICATE KEY UPDATE failure_reason = VALUES(failure_reason),
    update_time = CURRENT_TIMESTAMP] *)
Definition upsert_pending (now : Z) (id name : string) (d : Z) (reason : string)
    (h : list CompRow) : list CompRow :=
  if existsb (same_key id d) h then
    map (fun c => if same_key id d c then
                    {| c_account_id := c.(c_account_id);
                       c_account_name := c.(c_account_name);
                       failed_date := c.(failed_date);
                       failure_reason := Some reason;
                       compensation_status := c.(compensation_status);
                       compensation_date := c.(compensation_date);
                       c_update_time := now |}
                  else c) h
  else
    h ++ [{| c_account_id := id; c_account_name := name; failed_date := d;
             failure_reason := Some reason; compensation_status := CPENDING;
             compensation_date := None; c_update_time := now |}].

Definition record_failed_accounts_for_compensation (now current_date : Z)
    (accs : list AccountRow) (h : list CompRow) : list CompRow :=
  fold_left (fun h r => upsert_pending now r.(account_id) r.(account_name)
                          current_date (fallback_reason r) h)
            (filter (fun r => is_failed_status r.(status)) accs) h.

(** [last_failed_date IS NULL OR last_failed_date < today] *)
Definition failed_before (lfd : option Z) (today : Z) : bool :=
  match lfd with None => true | Some d => Z.ltb d today end.

Definition coalesce0 (v : option Z) : Z :=
  match v with Some n => n | None => 0 end.

(** Step 2a of [reset_all_accounts_to_pending] on one row, the four
    assignments of its SET clause applied in order: each CASE reads the
    row produced by the assignments before it (MySQL single-table UPDATE). *)
Definition set_failed_reason_backup (r : AccountRow) : AccountRow :=
  {| account_id := r.(account_id); account_name := r.(account_name);
     status := r.(status); retry_count := r.(retry_count);
     last_exception_msg := r.(last_exception_msg);
     next_retry_time := r.(next_retry_time);
     compensation_priority := r.(compensation_priority);
     consecutive_failures := r.(consecutive_failures);
     last_failed_date := r.(last_failed_date);
     failed_reason_backup :=
       match r.(last_exception_msg) with
       | Some m => if is_failed_status r.(status) then Some m
                   else r.(failed_reason_backup)
       | None => r.(failed_reason_backup)
       end;
     last_update_time := r.(last_update_time); update_time := r.(update_time) |}.

Definition set_last_failed_date (today : Z) (r : AccountRow) : AccountRow :=
  {| account_id := r.(account_id); account_name := r.(account_name);
     status := r.(status); retry_count := r.(retry_count);
     last_exception_msg := r.(last_exception_msg);
     next_retry_time := r.(next_retry_time);
     compensation_priority := r.(compensation_priority);
     consecutive_failures := r.(consecutive_failures);
     last_failed_date :=
       if is_failed_status r.(status) && failed_before r.(last_failed_date) today
       then Some today else r.(last_failed_date);
     failed_reason_backup := r.(failed_reason_backup);
     last_update_time := r.(last_update_time); update_time := r.(update_time) |}.

Definition set_compensation_priority (r : AccountRow) : AccountRow :=
  {| account_id := r.(account_id); account_name := r.(account_name);
     status := r.(status); retry_count := r.(retry_count);
     last_exception_msg := r.(last_exception_msg);
     next_retry_time := r.(next_retry_time);
     compensation_priority :=
       if is_failed_status r.(status) then 1
       else if status_eqb r.(status) RETRYING then 1
       else r.(compensation_priority);
     consecutive_failures := r.(consecutive_failures);
     last_failed_date := r.(last_failed_date);
     failed_reason_backup := r.(failed_reason_backup);
     last_update_time := r.(last_update_time); update_time := r.(update_time) |}.

Definition set_consecutive_failures (today : Z) (r : AccountRow) : AccountRow :=
  {| account_id := r.(account_id); account_name := r.(account_name);
     status := r.(status); retry_count := r.(retry_count);
     last_exception_msg := r.(last_exception_msg);
     next_retry_time := r.(next_retry_time);
     compensation_priority := r.(compensation_priority);
     consecutive_failures :=
       if is_failed_status r.(status) && failed_before r.(last_failed_date) today
       then Some (coalesce0 r.(consecutive_failures) + 1)
       else if status_eqb r.(status) COMPLETED then Some 0
       else r.(consecutive_failures);
     last_failed_date := r.(last_failed_date);
     failed_reason_backup := r.(failed_reason_backup);
     last_update_time := r.(last_update_time); update_time := r.(update_time) |}.

Definition update_compensation_row (today : Z) (r : AccountRow) : AccountRow :=
  set_consecutive_failures today
    (set_compensation_priority
       (set_last_failed_date today (set_failed_reason_backup r))).

(** [update_compensation_sql]: [WHERE status IN ('EXCEPTION','FAILED','RETRYING')] *)
Definition update_compensation (today : Z) (accs : list AccountRow) : list AccountRow :=
  map (fun r => if is_failed_status r.(status) || status_eqb r.(status) RETRYING
                then update_compensation_row today r else r) accs.

(** [reset_status_sql]: [WHERE status != 'PENDING'] *)
Definition reset_status_row (now : Z) (r : AccountRow) : AccountRow :=
  {| account_id := r.(account_id); account_name := r.(account_name);
     status := PENDING; retry_count := r.(retry_count);
     last_exception_msg := None; next_retry_time := None;
     compensation_priority := r.(compensation_priority);
     consecutive_failures := r.(consecutive_failures);
     last_failed_date := r.(last_failed_date);
     failed_reason_backup := r.(failed_reason_backup);
     last_update_time := now; update_time := now |}.

Definition reset_status (now : Z) (accs : list AccountRow) : list AccountRow :=
  map (fun r => if negb (status_eqb r.(status) PENDING)
                then reset_status_row now r else r) accs.

(** [reset_all_accounts_to_pending]: flush to the compensation table, then
    step 2a, then step 2b.  Returns [True] whether or not rows changed. *)
Definition reset_all_accounts_to_pending (now : Z) (db : DB) : bool * DB :=
  let current_date := date_of now in
  let h := record_failed_accounts_for_compensation now current_date
             db.(accounts) db.(history) in
  let a := reset_status now (update_compensation current_date db.(accounts)) in
  (true, {| accounts := a; history := h; ledger := db.(ledger) |}).

(** [mark_compensation_completed]: two UPDATEs; the second restricted to
    PENDING records with [failed_date >= CURDATE() - INTERVAL 7 DAY]. *)
Definition complete_account_row (now : Z) (r : AccountRow) : AccountRow :=
  {| account_id := r.(account_id); account_name := r.(account_name);
     status := r.(status); retry_count := r.(retry_count);
     last_exception_msg := r.(last_exception_msg);
     next_retry_time := r.(next_retry_time);
     compensation_priority := 0;
     consecutive_failures := Some 0;
     last_failed_date := r.(last_failed_date);
     failed_reason_backup := r.(failed_reason_backup);
     last_update_time := now; update_time := now |}.

Definition in_window (today : Z) (c : CompRow) : bool :=
  Z.leb (today - 7) c.(failed_date).

Definition pending_in_window (id : string) (today : Z) (c : CompRow) : bool :=
  String.eqb c.(c_account_id) id
  && comp_status_eqb c.(compensation_status) CPENDING
  && in_window today c.

Definition complete_comp_row (now : Z) (c : CompRow) : CompRow :=
  {| c_account_id := c.(c_account_id); c_account_name := c.(c_account_name);
     failed_date := c.(failed_date); failure_reason := c.(failure_reason);
     compensation_status := CCOMPLETED;
     compensation_date := Some (date_of now);
     c_update_time := now |}.

Definition mark_compensation_completed (now : Z) (id : string) (db : DB) : bool * DB :=
  let today := date_of now in
  (true,
   {| accounts := map (fun r => if String.eqb r.(account_id) id
                                then complete_account_row now r else r)
                      db.(accounts);
      history := map (fun c => if pending_in_window id today c
                               then complete_comp_row now c else c)
                     db.(history);
      ledger := db.(ledger) |}).

(** [update_account_status]: [SET status, last_update_time, update_time]
    (and [last_exception_msg] when a message is given) [WHERE account_id];
    [True] when a row was affected. *)
Definition update_account_status (now : Z) (id : string) (st : Status)
    (exception_msg : option string) (db : DB) : bool * DB :=
  let upd r :=
    {| account_id := r.(account_id); account_name := r.(account_name);
       status := st; retry_count := r.(retry_count);
       last_exception_msg := match exception_msg with
                             | Some _ => exception_msg
                             | None => r.(last_exception_msg) end;
       next_retry_time := r.(next_retry_time);
       compensation_priority := r.(compensation_priority);
       consecutive_failures := r.(consecutive_failures);
       last_failed_date := r.(last_failed_date);
       failed_reason_backup := r.(failed_reason_backup);
       last_update_time := now; update_time := now |} in
  (existsb (fun r => String.eqb r.(account_id) id) db.(accounts),
   {| accounts := map (fun r => if String.eqb r.(account_id) id then upd r else r)
                      db.(accounts);
      history := db.(history); ledger := db.(ledger) |}).

(** [mark_compensation_failed]: UPDATE of the PENDING records of the last
    7 days to FAILED ([failure_reason = COALESCE(reason, failure_reason)]);
    when it changes no row, [INSERT ... SELECT] of a FAILED record for
    today from the account's row.  A record [(id, today)] already present
    makes that INSERT fail on the unique key; the exception is caught and
    [False] returned with nothing written. *)
Definition fail_comp_row (now : Z) (reason : option string) (c : CompRow) : CompRow :=
  {| c_account_id := c.(c_account_id); c_account_name := c.(c_account_name);
     failed_date := c.(failed_date);
     failure_reason := match reason with Some _ => reason | None => c.(failure_reason) end;
     compensation_status := CFAILED;
     compensation_date := c.(compensation_date);
     c_update_time := now |}.

Definition mark_compensation_failed (now : Z) (id : string) (reason : option string)
    (db : DB) : bool * DB :=
  let today := date_of now in
  if existsb (pending_in_window id today) db.(history) then
    (true, {| accounts := db.(accounts);
              history := map (fun c => if pending_in_window id today c
                                       then fail_comp_row now reason c else c)
                             db.(history);
              ledger := db.(ledger) |})
  else if existsb (same_key id today) db.(history) then (false, db)
  else
    (true, {| accounts := db.(accounts);
              history := db.(history) ++
                map (fun r => {| c_account_id := r.(account_id);
                                 c_account_name := r.(account_name);
                                 failed_date := today; failure_reason := reason;
                                 compensation_status := CFAILED;
                                 compensation_date := None; c_update_time := now |})
                    (filter (fun r => String.eqb r.(account_id) id) db.(accounts));
              ledger := db.(ledger) |}).

(** [record_current_failures_to_compensation] *)
Definition record_current_failures_to_compensation (now : Z) (db : DB) : bool * DB :=
  (true, {| accounts := db.(accounts);
            history := record_failed_accounts_for_compensation now (date_of now)
                         db.(accounts) db.(history);
            ledger := db.(ledger) |}).

(** [resolve_crawl_exception] and [mark_crawl_unfinished]: one INSERT into
    [fx_crawl_exception]; the [note] argument is not written. *)
Definition resolve_crawl_exception (now : Z) (note : string) (db : DB) : bool * DB :=
  (true, {| accounts := db.(accounts); history := db.(history);
            ledger := db.(ledger) ++ [{| finished_date := now; l_status := finished |}] |}).

Definition mark_crawl_unfinished (now : Z) (note : string) (db : DB) : bool * DB :=
  (true, {| accounts := db.(accounts); history := db.(history);
            ledger := db.(ledger) ++ [{| finished_date := now; l_status := unfinished |}] |}).

(* ================================================================== *)
(** ** LoopCrawler ([loop_crawler.py]) *)

(** An entry of [attempted_accounts]; both callers in [run_one_round] build
    entries that carry the key [account_id] (the pending-compensation rows,
    or the non-empty URLs read from the target list). *)
Record Attempt := {
  a_id : string;
  a_name : string
}.

(** [[r.get("account_id") for r in attempted_accounts if r.get("account_id")]] *)
Definition attempted_ids (l : list Attempt) : list string :=
  filter (fun s => negb (String.eqb s "")) (map a_id l).

(** [_is_full_success]: [SELECT account_id, status FROM fx_account_status
    WHERE account_id IN (ids)], then every returned row must be COMPLETED. *)
Definition is_full_success (attempted : list Attempt) (accs : list AccountRow) : bool :=
  match attempted with
  | [] => false
  | _ =>
    let ids := attempted_ids attempted in
    match ids with
    | [] => false
    | _ =>
      let rows := filter (fun r => existsb (String.eqb r.(account_id)) ids) accs in
      match rows with
      | [] => false
      | _ => forallb (fun r => status_eqb r.(status) COMPLETED) rows
      end
    end
  end.

(** How [subprocess.run(cmd, timeout=24*3600)] ends. *)
Inductive Outcome :=
| Exited (returncode : Z)
| TimeoutExpired
| Raised (msg : string).

Inductive Mode := full | compensation.

(** The calls [_run_cmd] makes on the status manager, in order. *)
Inductive Effect :=
| EResolve (note : string)
| ERecordFailures
| EUnfinished (note : string)
| EMarkCompleted (id : string)
| EMarkFailed (id : string) (reason : string).

(** [_run_cmd]; [db] is the store as the subprocess left it, read by
    [_is_full_success]; [script_exists] is the [os.path.exists] guard. *)
Definition run_cmd (is_test_mode script_exists : bool) (mode : Mode)
    (attempted : list Attempt) (outcome : Outcome) (db : DB) : list Effect :=
  if negb script_exists then []
  else
  match outcome with
  | Exited 0 =>
      match mode with
      | full =>
          if is_full_success attempted db.(accounts) then
            if negb is_test_mode then [EResolve "full run success"] else []
          else
            if negb is_test_mode
            then [ERecordFailures; EUnfinished "partial failure"] else []
      | compensation => map (fun r => EMarkCompleted (a_id r)) attempted
      end
  | Exited _ =>
      match mode with
      | full => [ERecordFailures; EUnfinished "subprocess nonzero exit"]
      | compensation =>
          map (fun r => EMarkFailed (a_id r) "subprocess failed; see console")
              attempted
      end
  | TimeoutExpired =>
      match mode with
      | full => [ERecordFailures; EUnfinished "timeout"]
      | compensation => map (fun r => EMarkFailed (a_id r) "timeout") attempted
      end
  | Raised e =>
      match mode with
      | full => [ERecordFailures; EUnfinished "exception"]
      | compensation =>
          map (fun r => EMarkFailed (a_id r) (substring 0 200 e)) attempted
      end
  end.

(** The store after the calls, each at time [now]. *)
Definition apply_effect (now : Z) (db : DB) (e : Effect) : DB :=
  match e with
  | EResolve note => snd (resolve_crawl_exception now note db)
  | ERecordFailures => snd (record_current_failures_to_compensation now db)
  | EUnfinished note => snd (mark_crawl_unfinished now note db)
  | EMarkCompleted id => snd (mark_compensation_completed now id db)
  | EMarkFailed id reason => snd (mark_compensation_failed now id (Some reason) db)
  end.

Definition run_cmd_db (now : Z) (is_test_mode script_exists : bool) (mode : Mode)
    (attempted : list Attempt) (outcome : Outcome) (db : DB) : DB :=
  fold_left (apply_effect now)
            (run_cmd is_test_mode script_exists mode attempted outcome db) db.

(** [self.is_test_mode = 'test' in excel_basename.lower()] (ASCII lowering). *)
Definition lower_ascii (c : ascii) : ascii :=
  let n := nat_of_ascii c in
  if (65 <=? n)%nat && (n <=? 90)%nat then ascii_of_nat (n + 32) else c.

Fixpoint lower (s : string) : string :=
  match s with
  | EmptyString => EmptyString
  | String c tl => String (lower_ascii c) (lower tl)
  end.

Fixpoint contains (pat s : string) : bool :=
  String.prefix pat s ||
  match s with
  | EmptyString => false
  | String _ tl => contains pat tl
  end.

Definition is_test_mode_of (excel_basename : string) : bool :=
  contains "test" (lower excel_basename).

(* ================================================================== *)
(** ** EnhancedProxyManager: the short-lived proxy lease *)

Module Lease.

(** The pool configuration read in [__init__]. *)
Record Config := {
  ip_lifetime : Z;
  refresh_buffer : Z;
  max_retries : nat;
  fallback_after_failures : Z
}.

(** The lease fields of the manager. *)
Record State := {
  upstream_proxy : option string;
  proxy_expiry_time : option Z;
  enabled : bool;
  consecutive_failures : Z;
  last_proxy_refresh : option Z
}.

(** An element of a returned list: a dict (with its [server] entry) or not. *)
Inductive Item := NotDict | DictItem (server : option string).

(** The [data] field of a decoded response: falsy ([None], [{}], [[]], ...),
    a non-empty dict ([ips] is [Some l] when [data['ips']] is a list), a
    non-empty list, or any other truthy value. *)
Inductive Data :=
| DFalsy
| DDict (ips : option (list Item)) (server : option string)
| DList (first : Item) (rest : list Item)
| DOther.

(** What [requests.get(...)] / [raise_for_status()] / [response.json()]
    produce for one attempt. *)
Inductive Response :=
| RequestError                                  (* RequestException *)
| BadJson                                       (* ValueError *)
| JsonNotDict                                   (* decoded value without .get *)
| JsonDict (code : option string) (data : Data).

Definition truthy_str (o : option string) : option string :=
  match o with
  | Some s => if String.eqb s "" then None else Some s
  | None => None
  end.

(** [server] selected by the shape analysis of one response;
    [inr tt] when the attempt raises an exception not caught by the loop. *)
Definition parse_response (r : Response) : option string + unit :=
  match r with
  | RequestError | BadJson => inl None
  | JsonNotDict => inr tt
  | JsonDict code data =>
      match code with
      | Some c =>
          if String.eqb c "SUCCESS" then
            match data with
            | DFalsy => inl None
            | DDict (Some (it :: _)) _ =>
                match it with DictItem srv => inl (truthy_str srv) | NotDict => inl None end
            | DDict _ srv => inl (truthy_str srv)
            | DList it _ =>
                match it with DictItem srv => inl (truthy_str srv) | NotDict => inl None end
            | DOther => inl None
            end
          else inl None
      | None => inl None
      end
  end.

Inductive RefreshResult := RSuccess | RFail | RCrash.

Definition on_success (cfg : Config) (t : Z) (server : string) (s : State) : State :=
  {| upstream_proxy := Some ("http://" ++ server);
     proxy_expiry_time := Some (t + cfg.(ip_lifetime));
     enabled := s.(enabled);
     consecutive_failures := 0;
     last_proxy_refresh := Some t |}.

(** After the last attempt: one more failed round, fallback at the threshold. *)
Definition on_round_failure (cfg : Config) (s : State) : State :=
  let n := s.(consecutive_failures) + 1 in
  {| upstream_proxy := s.(upstream_proxy);
     proxy_expiry_time := s.(proxy_expiry_time);
     enabled := if Z.leb cfg.(fallback_after_failures) n then false else s.(enabled);
     consecutive_failures := n;
     last_proxy_refresh := s.(last_proxy_refresh) |}.

(** [for attempt in range(max_retries)]: [resp i] is the clock reading and
    the provider's answer of attempt [i]; the last component counts the
    requests sent to the provider. *)
Fixpoint attempts (cfg : Config) (resp : nat -> Z * Response) (i fuel : nat)
    (s : State) : RefreshResult * State * nat :=
  match fuel with
  | O => (RFail, on_round_failure cfg s, O)
  | S f =>
      let '(t, r) := resp i in
      match parse_response r with
      | inl (Some server) => (RSuccess, on_success cfg t server s, 1%nat)
      | inl None =>
          let '(res, s', n) := attempts cfg resp (S i) f s in (res, s', S n)
      | inr _ => (RCrash, s, 1%nat)
      end
  end.

(** [_get_new_proxy] *)
Definition get_new_proxy (cfg : Config) (resp : nat -> Z * Response) (s : State)
    : RefreshResult * State * nat :=
  attempts cfg resp O cfg.(max_retries) s.

(** [_is_proxy_valid] at clock reading [now]. *)
Definition is_proxy_valid (cfg : Config) (now : Z) (s : State) : bool :=
  s.(enabled) &&
  match s.(proxy_expiry_time) with
  | None => false
  | Some e => Z.ltb now (e - cfg.(refresh_buffer))
  end.

(** Result of a public call: the value returned (or an escaping exception),
    the new state, the requests sent, and whether [_get_new_proxy] ran. *)
Record Call (A : Type) := mkCall {
  ret : A + unit;
  post : State;
  requests : nat;
  refreshed : bool
}.
Arguments mkCall {A}.
Arguments ret {A}.
Arguments post {A}.
Arguments requests {A}.
Arguments refreshed {A}.

(** [_refresh_proxy_if_needed]; the body under [proxy_lock]. *)
Definition refresh_proxy_if_needed (cfg : Config) (now : Z)
    (resp : nat -> Z * Response) (s : State) : Call bool :=
  if negb s.(enabled) then mkCall (inl false) s O false
  else if is_proxy_valid cfg now s then mkCall (inl true) s O false
  else
    let '(res, s', n) := get_new_proxy cfg resp s in
    match res with
    | RSuccess => mkCall (inl true) s' n true
    | RFail => mkCall (inl false) s' n true
    | RCrash => mkCall (inr tt) s' n true
    end.

(** [get_current_proxy] *)
Definition get_current_proxy (cfg : Config) (now : Z)
    (resp : nat -> Z * Response) (s : State) : Call (option string) :=
  if negb s.(enabled) then mkCall (inl None) s O false
  else
    let c := refresh_proxy_if_needed cfg now resp s in
    match c.(ret) with
    | inl true => mkCall (inl c.(post).(upstream_proxy)) c.(post) c.(requests) c.(refreshed)
    | inl false => mkCall (inl None) c.(post) c.(requests) c.(refreshed)
    | inr u => mkCall (inr u) c.(post) c.(requests) c.(refreshed)
    end.

(** The operations of the manager that touch the lease. *)
Inductive Op :=
| OpGetCurrent (now : Z) (resp : nat -> Z * Response)
| OpRefreshIfNeeded (now : Z) (resp : nat -> Z * Response)
| OpGetNew (resp : nat -> Z * Response).

Definition step (cfg : Config) (s : State) (o : Op) : State :=
  match o with
  | OpGetCurrent now resp => (get_current_proxy cfg now resp s).(post)
  | OpRefreshIfNeeded now resp => (refresh_proxy_if_needed cfg now resp s).(post)
  | OpGetNew resp => snd (fst (get_new_proxy cfg resp s))
  end.

Definition run (cfg : Config) (s : State) (ops : list Op) : State :=
  fold_left (step cfg) ops s.

(** Sample configuration (the defaults of [__init__]) and provider answers. *)
Definition sample_cfg : Config :=
  {| ip_lifetime := 60; refresh_buffer := 10; max_retries := 3;
     fallback_after_failures := 3 |}.

Definition fresh : State :=
  {| upstream_proxy := None; proxy_expiry_time := None; enabled := true;
     consecutive_failures := 0; last_proxy_refresh := None |}.

Definition good_resp (t : Z) : nat -> Z * Response :=
  fun _ => (t, JsonDict (Some "SUCCESS") (DDict None (Some "1.2.3.4:8000"))).

Definition bad_resp : nat -> Z * Response := fun _ => (0, RequestError).

(** The state after [k] calls of [_get_new_proxy] that all fail. *)
Definition failed_n (k : nat) : State :=
  Nat.iter k (fun s => snd (fst (get_new_proxy sample_cfg bad_resp s))) fresh.

(** The state after one successful refresh at time 1000. *)
Definition refreshed_at_1000 : State :=
  snd (fst (get_new_proxy sample_cfg (good_resp 1000) fresh)).

End Lease.

(* ================================================================== *)
(** ** More of AccountStatusManager *)

(** Values the schema of [fx_account_status] gives to the columns an
    INSERT does not list (the schema is not part of the repository). *)
Record ColumnDefaults := {
  default_priority : Z;
  default_consecutive_failures : option Z
}.

(** [initialize_account_status]: [SELECT COUNT( * ) ... WHERE account_id];
    an existing row is left as it is; otherwise one PENDING row is inserted. *)
Definition initialize_account_status (dflt : ColumnDefaults) (now : Z)
    (id name : string) (db : DB) : bool * DB :=
  if existsb (fun r => String.eqb r.(account_id) id) db.(accounts) then (true, db)
  else
    (true, {| accounts := db.(accounts) ++
                [{| account_id := id; account_name := name; status := PENDING;
                    retry_count := 0; last_exception_msg := None;
                    next_retry_time := None;
                    compensation_priority := dflt.(default_priority);
                    consecutive_failures := dflt.(default_consecutive_failures);
                    last_failed_date := None; failed_reason_backup := None;
                    last_update_time := now; update_time := now |}];
              history := db.(history); ledger := db.(ledger) |}).

(** [get_account_status]: [SELECT * ... WHERE account_id], [fetchone()]. *)
Definition get_account_status (id : string) (accs : list AccountRow) : option AccountRow :=
  find (fun r => String.eqb r.(account_id) id) accs.

(** [get_all_accounts_by_status]: [SELECT * ... WHERE status = %s]. *)
Definition get_all_accounts_by_status (st : Status) (accs : list AccountRow)
    : list AccountRow :=
  filter (fun r => status_eqb r.(status) st) accs.

(** An UPDATE [WHERE account_id = id]: [True] when a row was affected. *)
Definition update_where_id (id : string) (f : AccountRow -> AccountRow) (db : DB)
    : bool * DB :=
  (existsb (fun r => String.eqb r.(account_id) id) db.(accounts),
   {| accounts := map (fun r => if String.eqb r.(account_id) id then f r else r)
                      db.(accounts);
      history := db.(history); ledger := db.(ledger) |}).

(** [increment_retry_count]: [SET retry_count = retry_count + 1, update_time]. *)
Definition increment_retry_count (now : Z) (id : string) (db : DB) : bool * DB :=
  update_where_id id
    (fun r => {| account_id := r.(account_id); account_name := r.(account_name);
                 status := r.(status); retry_count := r.(retry_count) + 1;
                 last_exception_msg := r.(last_exception_msg);
                 next_retry_time := r.(next_retry_time);
                 compensation_priority := r.(compensation_priority);
                 consecutive_failures := r.(consecutive_failures);
                 last_failed_date := r.(last_failed_date);
                 failed_reason_backup := r.(failed_reason_backup);
                 last_update_time := r.(last_update_time); update_time := now |})
    db.

(** [reset_account_for_retry]: [SET status = 'RETRYING', retry_count =
    retry_count + 1, last_update_time, next_retry_time = now + 5 minutes,
    update_time] (and [last_exception_msg] when a message is given). *)
Definition reset_account_for_retry (now : Z) (id : string) (exception_msg : option string)
    (db : DB) : bool * DB :=
  update_where_id id
    (fun r => {| account_id := r.(account_id); account_name := r.(account_name);
                 status := RETRYING; retry_count := r.(retry_count) + 1;
                 last_exception_msg := match exception_msg with
                                       | Some _ => exception_msg
                                       | None => r.(last_exception_msg) end;
                 next_retry_time := Some (now + 5 * 60);
                 compensation_priority := r.(compensation_priority);
                 consecutive_failures := r.(consecutive_failures);
                 last_failed_date := r.(last_failed_date);
                 failed_reason_backup := r.(failed_reason_backup);
                 last_update_time := now; update_time := now |})
    db.

(** [update_last_crawl_time]: [SET last_update_time, update_time, status = 'ACTIVE']. *)
Definition update_last_crawl_time (now : Z) (id : string) (db : DB) : bool * DB :=
  update_where_id id
    (fun r => {| account_id := r.(account_id); account_name := r.(account_name);
                 status := ACTIVE; retry_count := r.(retry_count);
                 last_exception_msg := r.(last_exception_msg);
                 next_retry_time := r.(next_retry_time);
                 compensation_priority := r.(compensation_priority);
                 consecutive_failures := r.(consecutive_failures);
                 last_failed_date := r.(last_failed_date);
                 failed_reason_backup := r.(failed_reason_backup);
                 last_update_time := now; update_time := now |})
    db.

(** [set_next_retry_time]: [SET next_retry_time = %s, update_time = %s
    WHERE account_id = %s]. *)
Definition set_next_retry_time (now : Z) (id : string) (retry_time : Z) (db : DB)
    : bool * DB :=
  update_where_id id
    (fun r => {| account_id := r.(account_id); account_name := r.(account_name);
                 status := r.(status); retry_count := r.(retry_count);
                 last_exception_msg := r.(last_exception_msg);
                 next_retry_time := Some retry_time;
                 compensation_priority := r.(compensation_priority);
                 consecutive_failures := r.(consecutive_failures);
                 last_failed_date := r.(last_failed_date);
                 failed_reason_backup := r.(failed_reason_backup);
                 last_update_time := r.(last_update_time); update_time := now |})
    db.

(** The WHERE clause of [get_failed_accounts]: [status IN ('EXCEPTION',
    'FAILED') OR (compensation_priority > 0 AND last_failed_date >=
    CURDATE() - INTERVAL 2 DAY)] (NULL date: not selected).  The rows are
    the query's result set; its ORDER BY is not modelled. *)
Definition failed_accounts_where (today : Z) (r : AccountRow) : bool :=
  is_failed_status r.(status)
  || (Z.ltb 0 r.(compensation_priority)
      && match r.(last_failed_date) with
         | Some d => Z.leb (today - 2) d
         | None => false
         end).

Definition get_failed_accounts (now : Z) (accs : list AccountRow) : list AccountRow :=
  filter (failed_accounts_where (date_of now)) accs.

(** The [last_error] column of [get_failed_accounts]:
    [COALESCE(last_exception_msg, failed_reason_backup)]. *)
Definition last_error (r : AccountRow) : option string :=
  match r.(last_exception_msg) with
  | Some m => Some m
  | None => r.(failed_reason_backup)
  end.

(** The unique key [(account_id, failed_date)] of [fx_compensation_history]. *)
Definition history_keys (h : list CompRow) : list (string * Z) :=
  map (fun c => (c.(c_account_id), c.(failed_date))) h.

(** [get_accounts_summary]: [SELECT status, COUNT( * ) ... GROUP BY status
    ORDER BY status], put in a dict, then [summary['TOTAL'] = total]. *)
Definition statuses_by_name : list Status :=
  [ACTIVE; COMPLETED; EXCEPTION; FAILED; PENDING; PROCESSING; RETRYING].

Definition count_status (st : Status) (accs : list AccountRow) : Z :=
  Z.of_nat (length (get_all_accounts_by_status st accs)).

Definition get_accounts_summary (accs : list AccountRow) : list (string * Z) :=
  let rows := filter (fun p => Z.ltb 0 (snd p))
                (map (fun st => (status_str st, count_status st accs)) statuses_by_name) in
  let total := fold_left (fun acc p => acc + snd p) rows 0 in
  rows ++ [("TOTAL", total)].

(** Reading a key of a dict built by successive assignments. *)
Definition dict_get (d : list (string * Z)) (k : string) : option Z :=
  fold_left (fun acc p => if String.eqb (fst p) k then Some (snd p) else acc) d None.

(** One group of [get_pending_compensation_accounts]:
    [GROUP BY account_id, account_name] over the PENDING records. *)
Record PendingGroup := {
  g_account_id : string;
  g_account_name : string;
  first_failed_date : Z;   (* MIN(failed_date) *)
  last_update : Z          (* MAX(update_time) *)
}.

Definition group_of (c : CompRow) : PendingGroup :=
  {| g_account_id := c.(c_account_id); g_account_name := c.(c_account_name);
     first_failed_date := c.(failed_date); last_update := c.(c_update_time) |}.

Definition same_group (c : CompRow) (g : PendingGroup) : bool :=
  String.eqb g.(g_account_id) c.(c_account_id)
  && String.eqb g.(g_account_name) c.(c_account_name).

Fixpoint add_to_groups (c : CompRow) (gs : list PendingGroup) : list PendingGroup :=
  match gs with
  | [] => [group_of c]
  | g :: tl =>
      if same_group c g then
        {| g_account_id := g.(g_account_id); g_account_name := g.(g_account_name);
           first_failed_date := Z.min g.(first_failed_date) c.(failed_date);
           last_update := Z.max g.(last_update) c.(c_update_time) |} :: tl
      else g :: add_to_groups c tl
  end.

Definition pending_groups (h : list CompRow) : list PendingGroup :=
  fold_left (fun gs c => add_to_groups c gs)
            (filter (fun c => comp_status_eqb c.(compensation_status) CPENDING) h) [].

(** [ORDER BY first_failed_date ASC, last_update DESC]. *)
Module GroupOrder <: Orders.TotalLeBool.
Definition t := PendingGroup.
Definition leb (a b : PendingGroup) : bool :=
  Z.ltb a.(first_failed_date) b.(first_failed_date)
  || (Z.eqb a.(first_failed_date) b.(first_failed_date)
      && Z.leb b.(last_update) a.(last_update)).
Lemma leb_total : forall a b, leb a b = true \/ leb b a = true.
Proof.
  intros a b. unfold leb.
  destruct (Z.compare_spec (first_failed_date a) (first_failed_date b)) as [E|L|G].
  - rewrite E, Z.ltb_irrefl, Z.eqb_refl. simpl.
    destruct (Z.leb_spec (last_update b) (last_update a)); [left; reflexivity|].
    right. apply Z.leb_le. lia.
  - left. apply Z.ltb_lt in L. rewrite L. reflexivity.
  - right. apply Z.ltb_lt in G. rewrite G. reflexivity.
Qed.
End GroupOrder.

Module GroupSort := Mergesort.Sort GroupOrder.

(** [get_pending_compensation_accounts(limit)]: only [account_id] and
    [account_name] of each group, [LIMIT] when [limit > 0]. *)
Definition get_pending_compensation_accounts (limit : Z) (h : list CompRow)
    : list (string * string) :=
  let rows := map (fun g => (g.(g_account_id), g.(g_account_name)))
                  (GroupSort.sort (pending_groups h)) in
  if Z.ltb 0 limit then firstn (Z.to_nat limit) rows else rows.

(* ================================================================== *)
(** ** More of LoopCrawler *)

(** What [loop] does after a round that took [elapsed] whole seconds. *)
Inductive AfterRound := StopLoop | SleepFor (seconds : Z).

Definition after_round (interval_seconds elapsed : Z) (is_test_mode : bool) : AfterRound :=
  if is_test_mode then StopLoop
  else SleepFor (Z.max 0 (interval_seconds - elapsed)).

Definition to_attempt (p : string * string) : Attempt :=
  {| a_id := fst p; a_name := snd p |}.

(** The crawl subprocess ([main.py --excel <list>]): given the accounts of
    the list it is run on, how it ends and the store it leaves. *)
Definition Crawler := list Attempt -> DB -> Outcome * DB.

(** [_run_cmd] together with the subprocess it runs: the script check comes
    before the subprocess starts. *)
Definition invoke (crawler : Crawler) (now : Z) (is_test_mode script_exists : bool)
    (mode : Mode) (attempted : list Attempt) (db : DB) : DB :=
  if script_exists then
    let '(o, db') := crawler attempted db in
    run_cmd_db now is_test_mode script_exists mode attempted o db'
  else db.

(** [run_one_round]: reset, compensation pass over the pending accounts,
    full pass over [attempted_full] (the URLs read from the target list);
    [target_exists] is the [os.path.exists] check of the target list. *)
Definition run_one_round (crawler : Crawler) (now : Z) (dry_run : bool)
    (excel_basename : string) (target_exists script_exists : bool)
    (attempted_full : list Attempt) (db : DB) : DB :=
  let db1 := snd (reset_all_accounts_to_pending now db) in
  let pending := map to_attempt (get_pending_compensation_accounts 0 db1.(history)) in
  let tm := is_test_mode_of excel_basename in
  let db2 :=
    match pending with
    | [] => db1
    | _ =>
      if dry_run then
        fold_left (fun d r => snd (mark_compensation_completed now r.(a_id) d)) pending db1
      else invoke crawler now tm script_exists compensation pending db1
    end in
  if negb target_exists then db2
  else if dry_run then snd (resolve_crawl_exception now "dry-run full run success" db2)
  else invoke crawler now tm script_exists full attempted_full db2.

(* ================================================================== *)
(** ** AutomatedCrawler ([automated_crawler.py]), status bookkeeping *)

(** A target read from the list: its URL (the [account_id]) and name. *)
Record Target := {
  t_url : string;
  t_name : string
}.

(** How the processing of one target ends: [COMPLETED] after articles
    were fetched, [EXCEPTION] with a message on every failure path
    (capture start, UI trigger, cookie wait, cookie parse, retries, no
    article, exception inside the per-target [try]). *)
Inductive TargetOutcome := Crawled | CrawlFailed (msg : string).

Definition finish_target (now : Z) (t : Target) (o : TargetOutcome) (db : DB) : DB :=
  match o with
  | Crawled => snd (update_account_status now t.(t_url) COMPLETED None db)
  | CrawlFailed m => snd (update_account_status now t.(t_url) EXCEPTION (Some m) db)
  end.

(** One iteration of the target loop: PROCESSING, then the final status
    ([record_crawl_exception] is a no-op). *)
Definition process_target (now : Z) (db : DB) (p : Target * TargetOutcome) : DB :=
  finish_target now (fst p) (snd p)
    (snd (update_account_status now (fst p).(t_url) PROCESSING None db)).

(** [AutomatedCrawler.run] on the targets with the given outcomes: no
    target, [False]; otherwise every target is initialised, then processed
    in order; [True] when one succeeded ([clear_crawl_exception] is a
    no-op). *)
Definition automated_run (dflt : ColumnDefaults) (now : Z)
    (runs : list (Target * TargetOutcome)) (db : DB) : bool * DB :=
  match runs with
  | [] => (false, db)
  | _ :: _ =>
      let db1 := fold_left (fun d p => snd (initialize_account_status dflt now
                                              (fst p).(t_url) (fst p).(t_name) d)) runs db in
      let db2 := fold_left (process_target now) runs db1 in
      (existsb (fun p => match snd p with Crawled => true | CrawlFailed _ => false end) runs,
       db2)
  end.

(* ================================================================== *)
(** ** Sample rows *)

Definition sample_row (id : string) (st : Status) (msg : option string)
    (cf : option Z) (lfd : option Z) : AccountRow :=
  {| account_id := id; account_name := "name of " ++ id; status := st;
     retry_count := 0; last_exception_msg := msg; next_retry_time := None;
     compensation_priority := 0; consecutive_failures := cf;
     last_failed_date := lfd; failed_reason_backup := None;
     last_update_time := 0; update_time := 0 |}.

Definition sample_attempt (id : string) : Attempt :=
  {| a_id := id; a_name := "name of " ++ id |}.

(** Noon of day 20000. *)
Definition sample_now : Z := 20000 * 86400 + 43200.

(** The store change of [record_current_failures_to_compensation()]
    followed by one [mark_crawl_unfinished(...)] entry. *)
Definition failure_bookkeeping (now : Z) (db : DB) : DB :=
  {| accounts := db.(accounts);
     history := record_failed_accounts_for_compensation now (date_of now)
                  db.(accounts) db.(history);
     ledger := db.(ledger) ++ [{| finished_date := now; l_status := unfinished |}] |}.

(** [A] COMPLETED, [B] EXCEPTION. *)
Definition sample_db_partial : DB :=
  {| accounts := [sample_row "A" COMPLETED None (Some 0) None;
                  sample_row "B" EXCEPTION (Some "timeout") (Some 0) None];
     history := []; ledger := [] |}.

(** Rows whose account is not among [ids]. *)
Definition untried (ids : list string) (id : string) : bool :=
  negb (existsb (String.eqb id) ids).

(** A compensation record [(id, today)] still PENDING. *)
Definition sample_db_comp (st : Status) : DB :=
  {| accounts := [sample_row "A" st (Some "timeout") (Some 0) None];
     history := [{| c_account_id := "A"; c_account_name := "name of A";
                    failed_date := date_of sample_now;
                    failure_reason := Some "timeout";
                    compensation_status := CPENDING;
                    compensation_date := None; c_update_time := 0 |}];
     ledger := [] |}.

(** A same-day sequence of the round's calls on one account A: reset,
    compensation marked completed, the crawler records EXCEPTION again,
    partial failure recorded to the compensation table. *)
Definition sample_day_before_second_reset : DB :=
  let db0 := {| accounts := [sample_row "A" EXCEPTION (Some "timeout") (Some 0) None];
                history := []; ledger := [] |} in
  let db1 := snd (reset_all_accounts_to_pending sample_now db0) in
  let db2 := snd (mark_compensation_completed (sample_now + 60) "A" db1) in
  let db3 := snd (update_account_status (sample_now + 120) "A" EXCEPTION
                    (Some "crawl failed") db2) in
  snd (record_current_failures_to_compensation (sample_now + 180) db3).

(** The compensation status of the first record keyed [(id, d)]. *)
Definition hist_status (id : string) (d : Z) (h : list CompRow) : option CompStatus :=
  match find (same_key id d) h with
  | Some c => Some c.(compensation_status)
  | None => None
  end.

(** PENDING for a new record, the old status for an existing one. *)
Definition after_upsert (o : option CompStatus) : option CompStatus :=
  match o with Some s => Some s | None => Some CPENDING end.

(* ================================================================== *)
(** ** Theorems *)

(** C2 (code_bug): attempted [A; B] with A COMPLETED and no row for B at
    all: the full-success check returns true, although B is not present
    with status COMPLETED. *)
Theorem full_success_ignores_missing_row :
  is_full_success [sample_attempt "A"; sample_attempt "B"]
    [sample_row "A" COMPLETED None (Some 0) None] = true.
Proof. reflexivity. Qed.

(** C10: in test mode (base name containing "test" in any case), an exit-0
    full-crawl pass makes no call on the status manager, whatever the
    success check says; hence the ledger and the compensation table (and
    the whole store) are left as they are. *)
Theorem test_mode_exit0_full_writes_nothing :
  forall (excel_basename : string) (script_exists : bool)
         (attempted : list Attempt) (now : Z) (db : DB),
    is_test_mode_of excel_basename = true ->
    run_cmd (is_test_mode_of excel_basename) script_exists full attempted (Exited 0) db = []
    /\ run_cmd_db now (is_test_mode_of excel_basename) script_exists full attempted
         (Exited 0) db = db.
Proof.
  intros b se att now db H. unfold run_cmd_db, run_cmd. rewrite H.
  destruct se; simpl; [|auto].
  destruct (is_full_success att (accounts db)); simpl; auto.
Qed.

Lemma test_mode_exit0_full_writes_nothing_witness :
  is_test_mode_of "Test1.xlsx" = true /\
  run_cmd (is_test_mode_of "Test1.xlsx") true full [sample_attempt "A"] (Exited 0)
    {| accounts := []; history := []; ledger := [] |} = [] /\
  run_cmd_db sample_now (is_test_mode_of "Test1.xlsx") true full [sample_attempt "A"]
    (Exited 0) {| accounts := []; history := []; ledger := [] |}
  = {| accounts := []; history := []; ledger := [] |}.
Proof.
  split; [reflexivity|].
  apply (test_mode_exit0_full_writes_nothing "Test1.xlsx" true [sample_attempt "A"]
           sample_now {| accounts := []; history := []; ledger := [] |}).
  reflexivity.
Defined.

(** C5 (counterexample): in test mode, attempted [A; B] with B in EXCEPTION
    and exit code 0: the success check fails, yet no compensation record
    and no 'unfinished' ledger entry are written. *)
Lemma partial_failure_test_mode_writes_nothing :
  is_full_success [sample_attempt "A"; sample_attempt "B"]
    sample_db_partial.(accounts) = false /\
  let db' := run_cmd_db sample_now (is_test_mode_of "test1.xlsx") true full
               [sample_attempt "A"; sample_attempt "B"] (Exited 0) sample_db_partial in
  db'.(history) = [] /\ db'.(ledger) = [].
Proof. vm_compute. auto. Qed.

(** C5 (amended): for the full-crawl pass (crawler script present), a
    non-zero exit, a timeout and an exception while invoking the
    subprocess all give the same store change, in either mode:
    [record_current_failures_to_compensation()] then one 'unfinished'
    ledger entry.  An exit 0 that fails the success check gives that same
    change outside test mode, and no change at all in test mode. *)
Theorem full_pass_failure_bookkeeping :
  (forall now tm att db o,
      o <> Exited 0 ->
      run_cmd_db now tm true full att o db = failure_bookkeeping now db) /\
  (forall now att db,
      is_full_success att db.(accounts) = false ->
      run_cmd_db now false true full att (Exited 0) db = failure_bookkeeping now db) /\
  (forall now att db,
      is_full_success att db.(accounts) = false ->
      run_cmd_db now true true full att (Exited 0) db = db).
Proof.
  split; [|split].
  - intros now tm att db o Ho.
    destruct o as [[|p|p]| |e]; try congruence; reflexivity.
  - intros now att db H. unfold run_cmd_db, run_cmd. rewrite H. reflexivity.
  - intros now att db H. unfold run_cmd_db, run_cmd. rewrite H. reflexivity.
Qed.

Lemma full_pass_failure_bookkeeping_witness :
  TimeoutExpired <> Exited 0 /\
  run_cmd_db sample_now true true full [] TimeoutExpired sample_db_partial
  = failure_bookkeeping sample_now sample_db_partial /\
  is_full_success [sample_attempt "A"; sample_attempt "B"]
    sample_db_partial.(accounts) = false /\
  run_cmd_db sample_now false true full [sample_attempt "A"; sample_attempt "B"]
    (Exited 0) sample_db_partial = failure_bookkeeping sample_now sample_db_partial /\
  run_cmd_db sample_now true true full [sample_attempt "A"; sample_attempt "B"]
    (Exited 0) sample_db_partial = sample_db_partial.
Proof.
  assert (Ht : TimeoutExpired <> Exited 0) by discriminate.
  assert (Hf : is_full_success [sample_attempt "A"; sample_attempt "B"]
                 sample_db_partial.(accounts) = false) by reflexivity.
  destruct full_pass_failure_bookkeeping as [H1 [H2 H3]].
  split; [exact Ht|]. split; [apply (H1 _ _ _ _ _ Ht)|].
  split; [exact Hf|]. split; [apply (H2 _ _ _ Hf)|apply (H3 _ _ _ Hf)].
Defined.

(** Rows outside the keys a list of calls names are left alone. *)
Lemma filter_map_by_key {A} (key : A -> string) (keep : string -> bool)
    (f : A -> A) (l : list A) :
  (forall x, key (f x) = key x) ->
  (forall x, keep (key x) = true -> f x = x) ->
  filter (fun x => keep (key x)) (map f l) = filter (fun x => keep (key x)) l.
Proof.
  intros Hk Hf. induction l as [|x l IH]; simpl; [reflexivity|].
  rewrite Hk. destruct (keep (key x)) eqn:E.
  - rewrite (Hf x E), IH. reflexivity.
  - exact IH.
Qed.

Lemma mark_completed_calls_frame (now : Z) (keep : string -> bool) :
  forall (ks : list string) (db : DB),
    (forall k, In k ks -> keep k = false) ->
    let db' := fold_left (apply_effect now) (map EMarkCompleted ks) db in
    db'.(ledger) = db.(ledger) /\
    filter (fun c => keep c.(c_account_id)) db'.(history)
      = filter (fun c => keep c.(c_account_id)) db.(history) /\
    filter (fun r => keep r.(account_id)) db'.(accounts)
      = filter (fun r => keep r.(account_id)) db.(accounts).
Proof.
  induction ks as [|k ks IH]; intros db Hks; cbv zeta; cbn [map fold_left]; [auto|].
  assert (Hr : forall k', In k' ks -> keep k' = false)
    by (intros k' Hk'; apply Hks; right; exact Hk').
  specialize (IH (apply_effect now db (EMarkCompleted k)) Hr). cbv zeta in IH.
  destruct IH as [H1 [H2 H3]].
  assert (Hk : keep k = false) by (apply Hks; left; reflexivity).
  rewrite H1, H2, H3. simpl. split; [reflexivity|split].
  - apply (filter_map_by_key c_account_id keep).
    + intros c. destruct (pending_in_window k (date_of now) c); reflexivity.
    + intros c Hc. unfold pending_in_window.
      destruct (String.eqb_spec (c_account_id c) k) as [E|E]; [|reflexivity].
      rewrite E in Hc. congruence.
  - apply (filter_map_by_key account_id keep).
    + intros r. destruct (String.eqb (account_id r) k); reflexivity.
    + intros r Hkr. destruct (String.eqb_spec (account_id r) k) as [E|E]; [|reflexivity].
      rewrite E in Hkr. congruence.
Qed.

(** C3 (counterexample): A's crawl ended in EXCEPTION, the compensation
    process exits 0, and A's PENDING compensation record is marked
    COMPLETED anyway: no per-account check of the crawl outcome. *)
Lemma compensation_exit0_marks_failed_account :
  let db' := run_cmd_db sample_now false true compensation [sample_attempt "A"]
               (Exited 0) (sample_db_comp EXCEPTION) in
  map status db'.(accounts) = [EXCEPTION] /\
  map compensation_status db'.(history) = [CCOMPLETED].
Proof. vm_compute. auto. Qed.

(** C3 (amended): when the compensation process exits 0,
    [mark_compensation_completed] is called once for every attempted
    account, in order, whatever the store says about its crawl; the rows
    of the accounts not attempted are left unchanged in both tables, and
    no ledger entry is written. *)
Theorem compensation_exit0_marks_every_attempt :
  forall (now : Z) (tm : bool) (att : list Attempt) (db : DB),
    run_cmd tm true compensation att (Exited 0) db
      = map (fun r => EMarkCompleted r.(a_id)) att /\
    let db' := run_cmd_db now tm true compensation att (Exited 0) db in
    let ids := map a_id att in
    db'.(ledger) = db.(ledger) /\
    filter (fun c => untried ids c.(c_account_id)) db'.(history)
      = filter (fun c => untried ids c.(c_account_id)) db.(history) /\
    filter (fun r => untried ids r.(account_id)) db'.(accounts)
      = filter (fun r => untried ids r.(account_id)) db.(accounts).
Proof.
  intros now tm att db. split; [reflexivity|].
  unfold run_cmd_db. cbv zeta.
  change (run_cmd tm true compensation att (Exited 0) db)
    with (map (fun r => EMarkCompleted (a_id r)) att).
  replace (map (fun r => EMarkCompleted (a_id r)) att)
    with (map EMarkCompleted (map a_id att)) by (rewrite map_map; reflexivity).
  apply mark_completed_calls_frame.
  intros k Hk. unfold untried.
  apply negb_false_iff, existsb_exists. exists k. split; [exact Hk|].
  apply String.eqb_refl.
Qed.

(** Shared facts on the row functions. *)
Lemma status_eqb_true (a b : Status) : status_eqb a b = true <-> a = b.
Proof. destruct a, b; simpl; split; congruence. Qed.

Lemma Forall2_map_self {A} (R : A -> A -> Prop) (f : A -> A) (l : list A) :
  (forall x, In x l -> R x (f x)) -> Forall2 R l (map f l).
Proof.
  induction l as [|x l IH]; intros H; simpl; constructor.
  - apply H. left. reflexivity.
  - apply IH. intros y Hy. apply H. right. exact Hy.
Qed.

(** C8: [mark_compensation_completed(X)] changes only X's PENDING records
    with [failed_date >= today - 7] (to COMPLETED, dated today); any other
    record, in particular X's PENDING record of 10 days ago, is left as it
    is; X's account row gets [compensation_priority = 0] and
    [consecutive_failures = 0]; the call reports success. *)
Theorem mark_completed_seven_day_window :
  forall (now : Z) (x : string) (db : DB),
    let today := date_of now in
    let '(ok, db') := mark_compensation_completed now x db in
    ok = true /\
    Forall2 (fun c c' =>
               if String.eqb c.(c_account_id) x
                  && comp_status_eqb c.(compensation_status) CPENDING
                  && Z.leb (today - 7) c.(failed_date)
               then c'.(compensation_status) = CCOMPLETED
                    /\ c'.(compensation_date) = Some today
                    /\ c'.(c_account_id) = c.(c_account_id)
                    /\ c'.(failed_date) = c.(failed_date)
               else c' = c)
            db.(history) db'.(history) /\
    (forall c, In c db.(history) -> c.(failed_date) = today - 10 ->
               In c db'.(history)) /\
    Forall2 (fun r r' =>
               if String.eqb r.(account_id) x
               then r'.(compensation_priority) = 0
                    /\ r'.(consecutive_failures) = Some 0
                    /\ r'.(account_id) = r.(account_id)
                    /\ r'.(status) = r.(status)
               else r' = r)
            db.(accounts) db'.(accounts) /\
    db'.(ledger) = db.(ledger).
Proof.
  intros now x db. cbv zeta. simpl.
  split; [reflexivity|]. split; [|split; [|split]].
  - apply Forall2_map_self. intros c _. unfold pending_in_window, in_window.
    destruct (String.eqb (c_account_id c) x && comp_status_eqb (compensation_status c) CPENDING
              && Z.leb (date_of now - 7) (failed_date c)); simpl; auto.
  - intros c Hc Hd. apply in_map_iff. exists c. split; [|exact Hc].
    unfold pending_in_window, in_window. rewrite Hd.
    replace (Z.leb (date_of now - 7) (date_of now - 10)) with false
      by (symmetry; apply Z.leb_gt; lia).
    rewrite andb_false_r. reflexivity.
  - apply Forall2_map_self. intros r _.
    destruct (String.eqb (account_id r) x); simpl; auto.
  - reflexivity.
Qed.

(** All rows PENDING. *)
Definition all_pending (accs : list AccountRow) : Prop :=
  Forall (fun r => r.(status) = PENDING) accs.

Lemma reset_status_all_pending (now : Z) (accs : list AccountRow) :
  all_pending (reset_status now accs).
Proof.
  unfold all_pending, reset_status. apply Forall_forall. intros r' Hr'.
  apply in_map_iff in Hr'. destruct Hr' as [r [<- _]].
  destruct (status_eqb (status r) PENDING) eqn:E; simpl; [|reflexivity].
  apply status_eqb_true. exact E.
Qed.

Lemma all_pending_fixed (now today : Z) (accs : list AccountRow) :
  all_pending accs ->
  filter (fun r => is_failed_status r.(status)) accs = [] /\
  update_compensation today accs = accs /\
  reset_status now accs = accs.
Proof.
  unfold all_pending. induction 1 as [|r l Hr _ [IH1 [IH2 IH3]]];
    [auto|].
  unfold update_compensation, reset_status in *. simpl.
  rewrite Hr. simpl. rewrite IH1, IH2, IH3. auto.
Qed.

(** C9: two resets in a row (at any two times) end in the state of the
    first: after the first every row is PENDING, the second finds no row
    to flush, snapshot or reset, and it still reports success. *)
Theorem reset_idempotent :
  forall (now1 now2 : Z) (db : DB),
    let '(_, db1) := reset_all_accounts_to_pending now1 db in
    let '(ok2, db2) := reset_all_accounts_to_pending now2 db1 in
    all_pending db1.(accounts) /\ ok2 = true /\ db2 = db1.
Proof.
  intros now1 now2 db. simpl.
  pose proof (reset_status_all_pending now1
                (update_compensation (date_of now1) (accounts db))) as Hp.
  split; [exact Hp|]. split; [reflexivity|].
  destruct (all_pending_fixed now2 (date_of now2) _ Hp) as [H1 [H2 H3]].
  unfold record_failed_accounts_for_compensation at 1. simpl.
  rewrite H1, H2, H3. reflexivity.
Qed.

Lemma update_compensation_row_cf (today : Z) (r : AccountRow) :
  is_failed_status r.(status) = true ->
  (update_compensation_row today r).(consecutive_failures) = r.(consecutive_failures).
Proof.
  intros H. unfold update_compensation_row, set_consecutive_failures,
    set_compensation_priority, set_last_failed_date, set_failed_reason_backup.
  simpl. rewrite H. simpl.
  destruct (failed_before (last_failed_date r) today) eqn:E; simpl.
  - rewrite Z.ltb_irrefl. destruct (status r); cbv in H; try discriminate H; reflexivity.
  - rewrite E. destruct (status r); cbv in H; try discriminate H; reflexivity.
Qed.

Lemma update_compensation_row_lfd (today : Z) (r : AccountRow) :
  is_failed_status r.(status) = true ->
  (update_compensation_row today r).(last_failed_date) <> None.
Proof.
  intros H. unfold update_compensation_row, set_consecutive_failures,
    set_compensation_priority, set_last_failed_date, set_failed_reason_backup.
  simpl. rewrite H. simpl.
  destruct (failed_before (last_failed_date r) today) eqn:E; [discriminate|].
  destruct (last_failed_date r); [discriminate|discriminate E].
Qed.

(** C1 (code_bug): the reset never increments [consecutive_failures] of an
    EXCEPTION/FAILED row.  Step 2a first sets [last_failed_date] to today
    and its [consecutive_failures] CASE then reads that new value, so the
    increment branch is never taken.  Failing input: A in EXCEPTION with no
    [last_failed_date] and [consecutive_failures = 2] keeps 2. *)
Theorem reset_never_increments_consecutive_failures :
  map consecutive_failures
      (snd (reset_all_accounts_to_pending sample_now
              {| accounts := [sample_row "A" EXCEPTION (Some "timeout") (Some 2) None];
                 history := []; ledger := [] |})).(accounts) = [Some 2] /\
  forall (now : Z) (db : DB),
    Forall2 (fun r r' => if is_failed_status r.(status)
                         then r'.(consecutive_failures) = r.(consecutive_failures)
                              /\ r'.(last_failed_date) <> None
                         else True)
            db.(accounts) (snd (reset_all_accounts_to_pending now db)).(accounts).
Proof.
  split; [reflexivity|].
  intros now db. simpl. unfold reset_status, update_compensation. rewrite map_map.
  apply Forall2_map_self. intros r _.
  destruct (is_failed_status (status r)) eqn:Hf; [|exact I]. simpl.
  destruct (negb (status_eqb (status r) PENDING)); simpl;
    (split; [apply update_compensation_row_cf; exact Hf
            |apply update_compensation_row_lfd; exact Hf]).
Qed.

Lemma find_map_same {A} (P : A -> bool) (f : A -> A) (l : list A) :
  (forall x, P (f x) = P x) -> find P (map f l) = option_map f (find P l).
Proof.
  intros HP. induction l as [|x l IH]; simpl; [reflexivity|].
  rewrite HP. destruct (P x); [reflexivity|exact IH].
Qed.

Lemma find_app_one {A} (P : A -> bool) (l : list A) (y : A) :
  find P (l ++ [y]) = match find P l with Some x => Some x
                      | None => if P y then Some y else None end.
Proof. induction l as [|x l IH]; simpl; [reflexivity|]. destruct (P x); auto. Qed.

(** One upsert on the history, seen from a key [(id, d)]. *)
Lemma hist_status_upsert (now : Z) (id' name : string) (d' : Z) (reason : string)
    (id : string) (d : Z) (h : list CompRow) :
  hist_status id d (upsert_pending now id' name d' reason h)
  = if String.eqb id' id && Z.eqb d' d then after_upsert (hist_status id d h)
    else hist_status id d h.
Proof.
  unfold upsert_pending, hist_status.
  destruct (existsb (same_key id' d') h) eqn:Ex.
  - rewrite find_map_same.
    2:{ intros c. destruct (same_key id' d' c); reflexivity. }
    destruct (find (same_key id d) h) as [c|] eqn:F; simpl.
    + destruct (same_key id' d' c); simpl;
        destruct (String.eqb id' id && Z.eqb d' d); reflexivity.
    + destruct (String.eqb_spec id' id) as [<-|]; simpl; [|reflexivity].
      destruct (Z.eqb_spec d' d) as [<-|]; simpl; [|reflexivity].
      exfalso. apply existsb_exists in Ex. destruct Ex as [c [Hc Hk]].
      pose proof (find_none _ _ F c Hc). congruence.
  - rewrite find_app_one.
    destruct (find (same_key id d) h) as [c|] eqn:F.
    + destruct (String.eqb id' id && Z.eqb d' d); reflexivity.
    + unfold same_key at 1; simpl.
      destruct (String.eqb id' id && Z.eqb d' d); reflexivity.
Qed.

Lemma hist_status_flush (now d : Z) (id : string) :
  forall (l : list AccountRow) (h : list CompRow),
    hist_status id d
      (fold_left (fun h r => upsert_pending now r.(account_id) r.(account_name)
                               d (fallback_reason r) h) l h)
    = if existsb (fun r => String.eqb r.(account_id) id) l
      then after_upsert (hist_status id d h) else hist_status id d h.
Proof.
  induction l as [|r l IH]; intros h; simpl; [reflexivity|].
  rewrite IH, hist_status_upsert, Z.eqb_refl, andb_true_r.
  destruct (String.eqb (account_id r) id); simpl.
  - destruct (existsb (fun r0 => String.eqb (account_id r0) id) l);
      [destruct (hist_status id d h)|]; reflexivity.
  - reflexivity.
Qed.

(** C4 (counterexample): on one day, A's PENDING record is marked
    COMPLETED by the compensation pass, the full crawl fails A again and
    the failure is recorded; at the next reset that day A is in EXCEPTION,
    but the flush's upsert only refreshes the reason of the existing
    [(A, today)] record, so after the reset no PENDING record of A dated
    today exists. *)
Lemma reset_keeps_completed_record_of_failed_account :
  let db := sample_day_before_second_reset in
  let db' := snd (reset_all_accounts_to_pending (sample_now + 240) db) in
  date_of (sample_now + 240) = date_of sample_now /\
  map status db.(accounts) = [EXCEPTION] /\
  map status db'.(accounts) = [PENDING] /\
  existsb (fun c => String.eqb c.(c_account_id) "A"
                    && Z.eqb c.(failed_date) (date_of (sample_now + 240))
                    && comp_status_eqb c.(compensation_status) CPENDING)
          db'.(history) = false /\
  map compensation_status db'.(history) = [CCOMPLETED].
Proof. vm_compute. repeat split; reflexivity. Qed.

(** C4 (amended): after a reset every row is PENDING, and every account in
    EXCEPTION/FAILED before it has a compensation record dated today: a
    new PENDING one when it had none for today, otherwise its existing
    record for today, whose status is kept (the upsert only refreshes the
    reason and [update_time]).  The flush reads the rows before the
    snapshot and reset phases. *)
Theorem reset_flushes_failed_accounts :
  forall (now : Z) (db : DB) (r : AccountRow),
    In r db.(accounts) -> is_failed_status r.(status) = true ->
    let db' := snd (reset_all_accounts_to_pending now db) in
    Forall2 (fun a a' => a'.(account_id) = a.(account_id) /\ a'.(status) = PENDING)
            db.(accounts) db'.(accounts) /\
    hist_status r.(account_id) (date_of now) db'.(history)
      = after_upsert (hist_status r.(account_id) (date_of now) db.(history)) /\
    exists c, In c db'.(history) /\ c.(c_account_id) = r.(account_id)
              /\ c.(failed_date) = date_of now
              /\ Some c.(compensation_status)
                 = after_upsert (hist_status r.(account_id) (date_of now) db.(history)).
Proof.
  intros now db r Hin Hf. cbv zeta.
  assert (Hh : hist_status r.(account_id) (date_of now)
                 (snd (reset_all_accounts_to_pending now db)).(history)
               = after_upsert (hist_status r.(account_id) (date_of now) db.(history))).
  { simpl. unfold record_failed_accounts_for_compensation.
    rewrite hist_status_flush.
    replace (existsb _ _) with true; [reflexivity|].
    symmetry. apply existsb_exists. exists r. split.
    - apply filter_In. split; assumption.
    - apply String.eqb_refl. }
  split; [|split; [exact Hh|]].
  - simpl. unfold reset_status, update_compensation. rewrite map_map.
    apply Forall2_map_self. intros a _.
    destruct (is_failed_status (status a) || status_eqb (status a) RETRYING);
      simpl; destruct (status_eqb (status a) PENDING) eqn:E; simpl;
      (split; [reflexivity|]); try reflexivity; apply status_eqb_true; exact E.
  - revert Hh. unfold hist_status.
    destruct (find (same_key (account_id r) (date_of now))
                (history (snd (reset_all_accounts_to_pending now db)))) as [c|] eqn:F.
    + intros Hh. apply find_some in F. destruct F as [Hc Hk].
      unfold same_key in Hk. apply andb_true_iff in Hk. destruct Hk as [H1 H2].
      exists c. repeat split.
      * exact Hc.
      * apply String.eqb_eq. exact H1.
      * apply Z.eqb_eq. exact H2.
      * exact Hh.
    + unfold after_upsert.
      destruct (find (same_key (account_id r) (date_of now)) (history db));
        discriminate.
Qed.

Lemma reset_flushes_failed_accounts_witness :
  let db := {| accounts := [sample_row "A" EXCEPTION (Some "timeout") (Some 0) None];
               history := []; ledger := [] |} in
  In (sample_row "A" EXCEPTION (Some "timeout") (Some 0) None) db.(accounts) /\
  is_failed_status EXCEPTION = true /\
  let db' := snd (reset_all_accounts_to_pending sample_now db) in
  Forall2 (fun a a' => a'.(account_id) = a.(account_id) /\ a'.(status) = PENDING)
          db.(accounts) db'.(accounts) /\
  hist_status "A" (date_of sample_now) db'.(history)
    = after_upsert (hist_status "A" (date_of sample_now) db.(history)) /\
  exists c, In c db'.(history) /\ c.(c_account_id) = "A"
            /\ c.(failed_date) = date_of sample_now
            /\ Some c.(compensation_status)
               = after_upsert (hist_status "A" (date_of sample_now) db.(history)).
Proof.
  cbv zeta.
  assert (Hin : In (sample_row "A" EXCEPTION (Some "timeout") (Some 0) None)
                  [sample_row "A" EXCEPTION (Some "timeout") (Some 0) None])
    by (left; reflexivity).
  split; [exact Hin|]. split; [reflexivity|].
  exact (reset_flushes_failed_accounts sample_now
           {| accounts := [sample_row "A" EXCEPTION (Some "timeout") (Some 0) None];
              history := []; ledger := [] |}
           (sample_row "A" EXCEPTION (Some "timeout") (Some 0) None) Hin eq_refl).
Defined.

Module LeaseFacts.
Import Lease.

Lemma attempts_fail (cfg : Config) (resp : nat -> Z * Response) :
  forall fuel i s s' n,
    attempts cfg resp i fuel s = (RFail, s', n) ->
    s' = on_round_failure cfg s /\ n = fuel.
Proof.
  induction fuel as [|f IH]; intros i s s' n H; simpl in H.
  - inversion H. auto.
  - destruct (resp i) as [t r].
    destruct (parse_response r) as [[server|]|u].
    + discriminate H.
    + destruct (attempts cfg resp (S i) f s) as [[res s1] n1] eqn:E.
      inversion H; subst. destruct (IH _ _ _ _ E) as [-> ->]. auto.
    + discriminate H.
Qed.

Lemma attempts_success (cfg : Config) (resp : nat -> Z * Response) :
  forall fuel i s s' n,
    attempts cfg resp i fuel s = (RSuccess, s', n) ->
    exists t server, s' = on_success cfg t server s.
Proof.
  induction fuel as [|f IH]; intros i s s' n H; simpl in H.
  - discriminate H.
  - destruct (resp i) as [t r].
    destruct (parse_response r) as [[server|]|u].
    + inversion H. eauto.
    + destruct (attempts cfg resp (S i) f s) as [[res s1] n1] eqn:E.
      inversion H; subst. eapply IH. exact E.
    + discriminate H.
Qed.

Lemma attempts_disabled (cfg : Config) (resp : nat -> Z * Response) :
  forall fuel i s,
    s.(enabled) = false ->
    (snd (fst (attempts cfg resp i fuel s))).(enabled) = false.
Proof.
  induction fuel as [|f IH]; intros i s H; simpl.
  - destruct (Z.leb _ _); [reflexivity|exact H].
  - destruct (resp i) as [t r].
    destruct (parse_response r) as [[server|]|u]; simpl; [exact H| |exact H].
    specialize (IH (S i) s H).
    destruct (attempts cfg resp (S i) f s) as [[res s1] n1]. exact IH.
Qed.

Lemma step_disabled (cfg : Config) (s : State) (o : Op) :
  s.(enabled) = false -> (step cfg s o).(enabled) = false.
Proof.
  intros H. destruct o as [now resp|now resp|resp]; simpl.
  - unfold get_current_proxy. rewrite H. exact H.
  - unfold refresh_proxy_if_needed. rewrite H. exact H.
  - apply attempts_disabled. exact H.
Qed.

Lemma run_disabled (cfg : Config) :
  forall ops s, s.(enabled) = false -> (run cfg s ops).(enabled) = false.
Proof.
  unfold run. induction ops as [|o ops IH]; intros s H; simpl; [exact H|].
  apply IH. apply step_disabled. exact H.
Qed.

Lemma get_current_enabled (cfg : Config) (now : Z) (resp : nat -> Z * Response)
    (s : State) :
  s.(enabled) = true ->
  get_current_proxy cfg now resp s
  = if is_proxy_valid cfg now s then mkCall (inl s.(upstream_proxy)) s O false
    else let '(res, s', n) := get_new_proxy cfg resp s in
         match res with
         | RSuccess => mkCall (inl s'.(upstream_proxy)) s' n true
         | RFail => mkCall (inl None) s' n true
         | RCrash => mkCall (inr tt) s' n true
         end.
Proof.
  intros H. unfold get_current_proxy, refresh_proxy_if_needed. rewrite H. simpl.
  destruct (is_proxy_valid cfg now s); [reflexivity|].
  destruct (get_new_proxy cfg resp s) as [[[| |] s'] n]; reflexivity.
Qed.

End LeaseFacts.

Module LeaseClaims.
Import Lease LeaseFacts.

(** C6: a call of [_get_new_proxy] whose attempts all fail sends
    [max_retries] requests and adds exactly one to the failure counter,
    disabling the pool once the counter reaches [fallback_after_failures];
    no operation of the manager (including a refresh that succeeds)
    enables a disabled pool again; a disabled pool's [get_current_proxy]
    returns [None] with no request and no state change. *)
Theorem breaker_one_way :
  (forall (cfg : Config) (resp : nat -> Z * Response) (s s' : State) (n : nat),
      get_new_proxy cfg resp s = (RFail, s', n) ->
      n = cfg.(max_retries) /\
      s'.(consecutive_failures) = s.(consecutive_failures) + 1 /\
      s'.(enabled) = s.(enabled) && Z.ltb s'.(consecutive_failures) cfg.(fallback_after_failures) /\
      (cfg.(fallback_after_failures) <= s'.(consecutive_failures) -> s'.(enabled) = false)) /\
  (forall (cfg : Config) (s : State) (ops : list Op),
      s.(enabled) = false -> (run cfg s ops).(enabled) = false) /\
  (forall (cfg : Config) (now : Z) (resp : nat -> Z * Response) (s : State),
      s.(enabled) = false -> get_current_proxy cfg now resp s = mkCall (inl None) s O false).
Proof.
  split; [|split].
  - intros cfg resp s s' n H. unfold get_new_proxy in H.
    destruct (attempts_fail cfg resp _ _ _ _ _ H) as [-> ->].
    split; [reflexivity|]. simpl. split; [reflexivity|].
    rewrite Z.ltb_antisym.
    destruct (Z.leb_spec (fallback_after_failures cfg) (consecutive_failures s + 1));
      destruct (enabled s); simpl; split; auto; intros; lia.
  - intros cfg s ops H. apply run_disabled. exact H.
  - intros cfg now resp s H. unfold get_current_proxy. rewrite H. reflexivity.
Qed.

(** C7: with the pool enabled, [get_current_proxy] returns the cached
    address with no refresh exactly when [now < expiry_time - refresh_buffer],
    and otherwise runs [_get_new_proxy] under the lock.  After a successful
    refresh at time [t] with [ip_lifetime = 60] and [refresh_buffer = 10], a
    call at [t + 45] returns the cached address with no request and a call
    at [t + 51] refreshes. *)
Theorem lease_validity_window :
  (forall (cfg : Config) (now : Z) (resp : nat -> Z * Response) (s : State),
      s.(enabled) = true ->
      ((get_current_proxy cfg now resp s).(refreshed) = false <->
       exists e, s.(proxy_expiry_time) = Some e /\ now < e - cfg.(refresh_buffer)) /\
      ((get_current_proxy cfg now resp s).(refreshed) = false ->
       get_current_proxy cfg now resp s = mkCall (inl s.(upstream_proxy)) s O false)) /\
  (forall (cfg : Config) (resp resp' : nat -> Z * Response) (s s1 : State) (n : nat) (t : Z),
      cfg.(ip_lifetime) = 60 -> cfg.(refresh_buffer) = 10 -> s.(enabled) = true ->
      get_new_proxy cfg resp s = (RSuccess, s1, n) ->
      s1.(last_proxy_refresh) = Some t ->
      get_current_proxy cfg (t + 45) resp' s1 = mkCall (inl s1.(upstream_proxy)) s1 O false /\
      s1.(upstream_proxy) <> None /\
      (get_current_proxy cfg (t + 51) resp' s1).(refreshed) = true).
Proof.
  split.
  - intros cfg now resp s H. rewrite (get_current_enabled cfg now resp s H).
    unfold is_proxy_valid. rewrite H. simpl.
    destruct (proxy_expiry_time s) as [e|] eqn:Ee.
    + destruct (Z.ltb_spec now (e - refresh_buffer cfg)) as [Hv|Hv].
      * simpl. split; [split; [intros _; eauto|reflexivity]|reflexivity].
      * destruct (get_new_proxy cfg resp s) as [[[| |] s'] k]; simpl;
          (split; [split; [discriminate|intros [e' [He' Hl]]]|discriminate]);
          inversion He'; subst; lia.
    + destruct (get_new_proxy cfg resp s) as [[[| |] s'] k]; simpl;
        (split; [split; [discriminate|intros [e' [He' _]]; discriminate He']
                |discriminate]).
  - intros cfg resp resp' s s1 n t Hl Hb He Hs Ht.
    unfold get_new_proxy in Hs.
    destruct (attempts_success cfg resp _ _ _ _ _ Hs) as [t0 [server ->]].
    simpl in Ht. inversion Ht; subst t0.
    assert (He1 : enabled (on_success cfg t server s) = true) by exact He.
    split; [|split].
    + rewrite (get_current_enabled _ _ _ _ He1).
      unfold is_proxy_valid. rewrite He1. simpl. rewrite Hl, Hb.
      replace (Z.ltb (t + 45) (t + 60 - 10)) with true by (symmetry; apply Z.ltb_lt; lia).
      reflexivity.
    + simpl. discriminate.
    + rewrite (get_current_enabled _ _ _ _ He1).
      unfold is_proxy_valid. rewrite He1. simpl. rewrite Hl, Hb.
      replace (Z.ltb (t + 51) (t + 60 - 10)) with false by (symmetry; apply Z.ltb_ge; lia).
      destruct (get_new_proxy cfg resp' (on_success cfg t server s)) as [[[| |] s'] k];
        reflexivity.
Qed.

End LeaseClaims.

(** Three failed refreshes with [fallback_after_failures = 3] disable the
    pool; a later successful answer leaves it disabled. *)
Lemma breaker_one_way_witness :
  Lease.get_new_proxy Lease.sample_cfg Lease.bad_resp (Lease.failed_n 2)
    = (Lease.RFail, Lease.failed_n 3, 3%nat) /\
  (Lease.failed_n 3).(Lease.consecutive_failures) = 3 /\
  (Lease.failed_n 3).(Lease.enabled) = false /\
  (Lease.run Lease.sample_cfg (Lease.failed_n 3)
     [Lease.OpGetNew (Lease.good_resp 100); Lease.OpGetCurrent 100 (Lease.good_resp 100)])
    .(Lease.enabled) = false /\
  Lease.get_current_proxy Lease.sample_cfg 100 (Lease.good_resp 100) (Lease.failed_n 3)
    = Lease.mkCall (inl None) (Lease.failed_n 3) O false.
Proof.
  assert (Hf : Lease.get_new_proxy Lease.sample_cfg Lease.bad_resp (Lease.failed_n 2)
               = (Lease.RFail, Lease.failed_n 3, 3%nat)) by reflexivity.
  destruct LeaseClaims.breaker_one_way as [H1 [H2 H3]].
  destruct (H1 _ _ _ _ _ Hf) as [_ [Hc [_ Hth]]].
  assert (Hc3 : (Lease.failed_n 3).(Lease.consecutive_failures) = 3)
    by (rewrite Hc; reflexivity).
  assert (Hd : (Lease.failed_n 3).(Lease.enabled) = false)
    by (apply Hth; rewrite Hc3; reflexivity).
  split; [exact Hf|]. split; [exact Hc3|]. split; [exact Hd|].
  split; [apply H2; exact Hd|apply H3; exact Hd].
Defined.

(** A refresh at time 1000 ([ip_lifetime = 60], [refresh_buffer = 10]):
    cached at 1045, refreshed at 1051. *)
Lemma lease_validity_window_witness :
  Lease.get_new_proxy Lease.sample_cfg (Lease.good_resp 1000) Lease.fresh
    = (Lease.RSuccess, Lease.refreshed_at_1000, 1%nat) /\
  Lease.refreshed_at_1000.(Lease.upstream_proxy) = Some "http://1.2.3.4:8000" /\
  ((Lease.get_current_proxy Lease.sample_cfg 1045 Lease.bad_resp Lease.refreshed_at_1000)
     .(Lease.refreshed) = false <->
   exists e, Lease.refreshed_at_1000.(Lease.proxy_expiry_time) = Some e
             /\ 1045 < e - Lease.sample_cfg.(Lease.refresh_buffer)) /\
  Lease.get_current_proxy Lease.sample_cfg (1000 + 45) Lease.bad_resp Lease.refreshed_at_1000
    = Lease.mkCall (inl Lease.refreshed_at_1000.(Lease.upstream_proxy))
        Lease.refreshed_at_1000 O false /\
  (Lease.get_current_proxy Lease.sample_cfg (1000 + 51) Lease.bad_resp
     Lease.refreshed_at_1000).(Lease.refreshed) = true.
Proof.
  assert (Hs : Lease.get_new_proxy Lease.sample_cfg (Lease.good_resp 1000) Lease.fresh
               = (Lease.RSuccess, Lease.refreshed_at_1000, 1%nat)) by reflexivity.
  destruct LeaseClaims.lease_validity_window as [P1 P2].
  destruct (P2 Lease.sample_cfg (Lease.good_resp 1000) Lease.bad_resp Lease.fresh
              Lease.refreshed_at_1000 1%nat 1000 eq_refl eq_refl eq_refl Hs eq_refl)
    as [A [_ B]].
  split; [exact Hs|]. split; [reflexivity|].
  split; [apply (P1 Lease.sample_cfg 1045 Lease.bad_resp Lease.refreshed_at_1000 eq_refl)|].
  split; [exact A|exact B].
Defined.

(* ================================================================== *)
(** ** Further properties of AccountStatusManager *)

Lemma db_eta (db : DB) :
  {| accounts := db.(accounts); history := db.(history); ledger := db.(ledger) |} = db.
Proof. destruct db; reflexivity. Qed.

Lemma map_if_none {A} (P : A -> bool) (f : A -> A) (l : list A) :
  existsb P l = false -> map (fun x => if P x then f x else x) l = l.
Proof.
  induction l as [|x l IH]; simpl; [reflexivity|].
  destruct (P x); simpl; [discriminate|]. intros H. rewrite (IH H). reflexivity.
Qed.

Lemma existsb_find {A} (P : A -> bool) (l : list A) :
  existsb P l = match find P l with Some _ => true | None => false end.
Proof. induction l as [|x l IH]; simpl; [reflexivity|]. destruct (P x); auto. Qed.

Lemma find_map_if {A} (P : A -> bool) (f : A -> A) (l : list A) :
  (forall x, P x = true -> P (f x) = true) ->
  find P (map (fun x => if P x then f x else x) l) = option_map f (find P l).
Proof.
  intros Hf. induction l as [|x l IH]; simpl; [reflexivity|].
  destruct (P x) eqn:E; simpl.
  - rewrite (Hf x E). reflexivity.
  - rewrite E. exact IH.
Qed.

Lemma find_map_if_other {A} (P Q : A -> bool) (f : A -> A) (l : list A) :
  (forall x, P x = true -> Q x = false /\ Q (f x) = false) ->
  find Q (map (fun x => if P x then f x else x) l) = find Q l.
Proof.
  intros Hf. induction l as [|x l IH]; simpl; [reflexivity|].
  destruct (P x) eqn:E.
  - destruct (Hf x E) as [H1 H2]. rewrite H1, H2. exact IH.
  - destruct (Q x); [reflexivity|exact IH].
Qed.

Lemma string_eqb_neq (a b : string) : a <> b -> String.eqb a b = false.
Proof. intros H. destruct (String.eqb_spec a b); [contradiction|reflexivity]. Qed.

(** An UPDATE [WHERE account_id = id] whose SET keeps the key. *)
Lemma update_where_id_spec (id : string) (f : AccountRow -> AccountRow) (db : DB) :
  (forall r, (f r).(account_id) = r.(account_id)) ->
  fst (update_where_id id f db)
    = match get_account_status id db.(accounts) with Some _ => true | None => false end /\
  (get_account_status id db.(accounts) = None -> snd (update_where_id id f db) = db) /\
  get_account_status id (snd (update_where_id id f db)).(accounts)
    = option_map f (get_account_status id db.(accounts)) /\
  (forall id', id' <> id ->
     get_account_status id' (snd (update_where_id id f db)).(accounts)
     = get_account_status id' db.(accounts)) /\
  (snd (update_where_id id f db)).(history) = db.(history) /\
  (snd (update_where_id id f db)).(ledger) = db.(ledger).
Proof.
  intros Hf. unfold update_where_id, get_account_status; simpl.
  split; [apply existsb_find|]. split; [|split; [|split; [|split; reflexivity]]].
  - intros Hn. rewrite map_if_none; [apply db_eta|]. rewrite existsb_find, Hn. reflexivity.
  - apply find_map_if. intros x E. rewrite Hf. exact E.
  - intros id' Hne. apply find_map_if_other. intros x E.
    apply String.eqb_eq in E. rewrite Hf, E. split; apply string_eqb_neq; congruence.
Qed.

(** [initialize_account_status]: it always reports success; it never
    changes an existing row (the rows before it are a prefix of the rows
    after it); the row read back for the account is the existing one, or
    else a new PENDING row with [retry_count = 0]; and a second call for
    the same account (at any time, with any name) changes nothing. *)
Theorem initialize_account_status_keeps_existing :
  forall (dflt : ColumnDefaults) (now now' : Z) (id name name' : string) (db : DB),
    let '(ok, db1) := initialize_account_status dflt now id name db in
    ok = true /\
    (exists added, db1.(accounts) = (db.(accounts) ++ added)%list) /\
    db1.(history) = db.(history) /\ db1.(ledger) = db.(ledger) /\
    (exists r, get_account_status id db1.(accounts) = Some r /\
       (get_account_status id db.(accounts) = Some r \/
        (get_account_status id db.(accounts) = None /\ r.(account_name) = name /\
         r.(status) = PENDING /\ r.(retry_count) = 0 /\ r.(last_update_time) = now /\
         r.(last_failed_date) = None /\
         r.(compensation_priority) = dflt.(default_priority)))) /\
    snd (initialize_account_status dflt now' id name' db1) = db1.
Proof.
  intros dflt now now' id name name' db.
  unfold initialize_account_status at 1.
  destruct (existsb (fun r => String.eqb (account_id r) id) (accounts db)) eqn:E.
  - rewrite existsb_find in E. unfold get_account_status.
    destruct (find (fun r => String.eqb (account_id r) id) (accounts db)) as [r|] eqn:F;
      [|discriminate E].
    split; [reflexivity|]. split; [exists []; symmetry; apply app_nil_r|].
    split; [reflexivity|]. split; [reflexivity|]. split; [eauto|].
    unfold initialize_account_status. rewrite existsb_find, F. reflexivity.
  - rewrite existsb_find in E. unfold get_account_status.
    destruct (find (fun r => String.eqb (account_id r) id) (accounts db)) eqn:F;
      [discriminate E|].
    split; [reflexivity|]. split; [eexists; reflexivity|].
    split; [reflexivity|]. split; [reflexivity|]. simpl.
    rewrite find_app_one, F, String.eqb_refl. split.
    + eexists. split; [reflexivity|]. right. repeat split; reflexivity.
    + unfold initialize_account_status. simpl.
      rewrite existsb_find, find_app_one, F, String.eqb_refl. reflexivity.
Qed.

(** [update_account_status]: with no row for the account nothing is
    written; otherwise the row read back has the new status and times,
    the new message only when one is given, and its retry count; the rows
    of other accounts and the other tables are unchanged. *)
Theorem update_account_status_round_trip :
  forall (now : Z) (id : string) (st : Status) (msg : option string) (db : DB),
    let db1 := snd (update_account_status now id st msg db) in
    match get_account_status id db.(accounts) with
    | None => db1 = db
    | Some r =>
        exists r', get_account_status id db1.(accounts) = Some r' /\
          r'.(status) = st /\ r'.(last_update_time) = now /\ r'.(update_time) = now /\
          r'.(last_exception_msg) = (match msg with Some _ => msg
                                     | None => r.(last_exception_msg) end) /\
          r'.(retry_count) = r.(retry_count) /\
          r'.(account_name) = r.(account_name)
    end /\
    (forall id', id' <> id ->
       get_account_status id' db1.(accounts) = get_account_status id' db.(accounts)) /\
    db1.(history) = db.(history) /\ db1.(ledger) = db.(ledger).
Proof.
  intros now id st msg db. cbv zeta.
  match goal with |- context [update_account_status now id st msg db] =>
    change (update_account_status now id st msg db)
      with (update_where_id id
              (fun r => {| account_id := r.(account_id); account_name := r.(account_name);
                 status := st; retry_count := r.(retry_count);
                 last_exception_msg := match msg with
                                       | Some _ => msg
                                       | None => r.(last_exception_msg) end;
                 next_retry_time := r.(next_retry_time);
                 compensation_priority := r.(compensation_priority);
                 consecutive_failures := r.(consecutive_failures);
                 last_failed_date := r.(last_failed_date);
                 failed_reason_backup := r.(failed_reason_backup);
                 last_update_time := now; update_time := now |}) db) end.
  destruct (update_where_id_spec id
              (fun r => {| account_id := r.(account_id); account_name := r.(account_name);
                 status := st; retry_count := r.(retry_count);
                 last_exception_msg := match msg with
                                       | Some _ => msg
                                       | None => r.(last_exception_msg) end;
                 next_retry_time := r.(next_retry_time);
                 compensation_priority := r.(compensation_priority);
                 consecutive_failures := r.(consecutive_failures);
                 last_failed_date := r.(last_failed_date);
                 failed_reason_backup := r.(failed_reason_backup);
                 last_update_time := now; update_time := now |}) db (fun r => eq_refl))
    as [_ [Hn [Hg [Ho [Hh Hl]]]]].
  split; [|split; [exact Ho|split; [exact Hh|exact Hl]]].
  destruct (get_account_status id (accounts db)) as [r|] eqn:G.
  - rewrite Hg. eexists. split; [reflexivity|]. simpl. repeat split; reflexivity.
  - apply Hn. reflexivity.
Qed.

(** [increment_retry_count]: with no row for the account it reports
    failure and writes nothing; otherwise it reports success and the row
    read back has [retry_count] one higher, the same status and the new
    [update_time]; other accounts are unchanged. *)
Theorem increment_retry_count_round_trip :
  forall (now : Z) (id : string) (db : DB),
    match get_account_status id db.(accounts) with
    | None => increment_retry_count now id db = (false, db)
    | Some r =>
        fst (increment_retry_count now id db) = true /\
        exists r', get_account_status id (snd (increment_retry_count now id db)).(accounts)
                   = Some r' /\
          r'.(retry_count) = r.(retry_count) + 1 /\ r'.(status) = r.(status) /\
          r'.(update_time) = now /\ r'.(last_update_time) = r.(last_update_time)
    end /\
    (forall id', id' <> id ->
       get_account_status id' (snd (increment_retry_count now id db)).(accounts)
       = get_account_status id' db.(accounts)).
Proof.
  intros now id db. unfold increment_retry_count.
  match goal with |- context [update_where_id id ?f db] =>
    destruct (update_where_id_spec id f db (fun r => eq_refl)) as [Hb [Hn [Hg [Ho _]]]] end.
  split; [|exact Ho].
  destruct (get_account_status id (accounts db)) as [r|] eqn:G.
  - split; [exact Hb|]. rewrite Hg. eexists. split; [reflexivity|].
    simpl. repeat split; reflexivity.
  - rewrite (surjective_pairing (update_where_id id _ db)), Hb, Hn by reflexivity.
    reflexivity.
Qed.

(** The reset seen from one account: its row is the image of the old row. *)
Definition reset_row (now : Z) (r : AccountRow) : AccountRow :=
  let r1 := if is_failed_status r.(status) || status_eqb r.(status) RETRYING
            then update_compensation_row (date_of now) r else r in
  if negb (status_eqb r1.(status) PENDING) then reset_status_row now r1 else r1.

Lemma reset_get (now : Z) (id : string) (db : DB) :
  get_account_status id (snd (reset_all_accounts_to_pending now db)).(accounts)
  = option_map (reset_row now) (get_account_status id db.(accounts)).
Proof.
  unfold get_account_status. simpl. unfold reset_status, update_compensation.
  rewrite map_map. apply find_map_same. intros x. unfold reset_row.
  destruct (is_failed_status (status x) || status_eqb (status x) RETRYING);
    simpl; destruct (status_eqb _ PENDING); reflexivity.
Qed.

Lemma existsb_false_in {A} (P : A -> bool) (l : list A) (x : A) :
  existsb P l = false -> In x l -> P x = false.
Proof.
  intros H Hx. destruct (P x) eqn:E; [|reflexivity].
  assert (existsb P l = true) by (apply existsb_exists; eauto). congruence.
Qed.

Lemma filter_upsert_other (now : Z) (id' name : string) (d : Z) (reason id : string)
    (h : list CompRow) :
  String.eqb id' id = false ->
  filter (fun c => String.eqb c.(c_account_id) id) (upsert_pending now id' name d reason h)
  = filter (fun c => String.eqb c.(c_account_id) id) h.
Proof.
  intros Hne. unfold upsert_pending.
  destruct (existsb (same_key id' d) h).
  - induction h as [|c h IH]; simpl; [reflexivity|].
    destruct (same_key id' d c) eqn:K; simpl.
    + unfold same_key in K. apply andb_true_iff in K. destruct K as [K _].
      apply String.eqb_eq in K. rewrite K, Hne. exact IH.
    + destruct (String.eqb (c_account_id c) id); [f_equal|]; exact IH.
  - rewrite filter_app. simpl. rewrite Hne, app_nil_r. reflexivity.
Qed.

Lemma filter_flush_other (now d : Z) (id : string) :
  forall (l : list AccountRow) (h : list CompRow),
    existsb (fun r => String.eqb r.(account_id) id) l = false ->
    filter (fun c => String.eqb c.(c_account_id) id)
      (fold_left (fun h r => upsert_pending now r.(account_id) r.(account_name)
                               d (fallback_reason r) h) l h)
    = filter (fun c => String.eqb c.(c_account_id) id) h.
Proof.
  induction l as [|r l IH]; intros h H; simpl in *; [reflexivity|].
  apply orb_false_iff in H. destruct H as [H1 H2].
  rewrite IH by exact H2. apply filter_upsert_other. exact H1.
Qed.

(** The reset writes no compensation record for an account none of whose
    rows is in EXCEPTION/FAILED. *)
Lemma reset_history_other (now : Z) (id : string) (db : DB) :
  (forall r, In r db.(accounts) -> r.(account_id) = id -> is_failed_status r.(status) = false) ->
  filter (fun c => String.eqb c.(c_account_id) id)
    (snd (reset_all_accounts_to_pending now db)).(history)
  = filter (fun c => String.eqb c.(c_account_id) id) db.(history).
Proof.
  intros H. simpl. unfold record_failed_accounts_for_compensation.
  apply filter_flush_other.
  destruct (existsb _ _) eqn:E; [|reflexivity].
  apply existsb_exists in E. destruct E as [r [Hr Hid]].
  apply filter_In in Hr. destruct Hr as [Hr Hf].
  apply String.eqb_eq in Hid. rewrite (H r Hr Hid) in Hf. discriminate Hf.
Qed.

(** [reset_account_for_retry] followed by the next round's reset: with no
    row for the account nothing is written.  Otherwise the account is
    RETRYING with a retry time five minutes ahead and one more retry; the
    reset then makes it PENDING with [compensation_priority = 1], drops
    that retry time, keeps the retry count, [consecutive_failures] and
    [last_failed_date], and writes no compensation record for it. *)
Theorem reset_account_for_retry_then_reset :
  forall (now now' : Z) (id : string) (msg : option string) (db : DB),
    let db1 := snd (reset_account_for_retry now id msg db) in
    let db2 := snd (reset_all_accounts_to_pending now' db1) in
    match get_account_status id db.(accounts) with
    | None => db1 = db
    | Some r =>
        fst (reset_account_for_retry now id msg db) = true /\
        exists r1 r2,
          get_account_status id db1.(accounts) = Some r1 /\
          r1.(status) = RETRYING /\ r1.(next_retry_time) = Some (now + 300) /\
          r1.(retry_count) = r.(retry_count) + 1 /\
          get_account_status id db2.(accounts) = Some r2 /\
          r2.(status) = PENDING /\ r2.(next_retry_time) = None /\
          r2.(retry_count) = r.(retry_count) + 1 /\
          r2.(compensation_priority) = 1 /\
          r2.(consecutive_failures) = r.(consecutive_failures) /\
          r2.(last_failed_date) = r.(last_failed_date)
    end /\
    filter (fun c => String.eqb c.(c_account_id) id) db2.(history)
    = filter (fun c => String.eqb c.(c_account_id) id) db.(history).
Proof.
  intros now now' id msg db. cbv zeta. unfold reset_account_for_retry.
  match goal with |- context [update_where_id id ?f db] =>
    destruct (update_where_id_spec id f db (fun r => eq_refl)) as [Hb [Hn [Hg [_ [Hh _]]]]];
    set (db1 := update_where_id id f db) in * end.
  split.
  - destruct (get_account_status id (accounts db)) as [r|] eqn:G.
    + split; [exact Hb|]. rewrite reset_get, Hg. do 2 eexists.
      split; [reflexivity|]. simpl. repeat split; reflexivity.
    + apply Hn. reflexivity.
  - rewrite reset_history_other.
    + rewrite Hh. reflexivity.
    + intros r Hr Hid. subst db1. unfold update_where_id in Hr. simpl in Hr.
      apply in_map_iff in Hr. destruct Hr as [r0 [<- _]].
      destruct (String.eqb (account_id r0) id) eqn:E; [reflexivity|].
      simpl in Hid. subst id. rewrite String.eqb_refl in E. discriminate E.
Qed.

Lemma update_compensation_row_failed (today : Z) (r : AccountRow) :
  is_failed_status r.(status) = true ->
  (update_compensation_row today r).(status) = r.(status) /\
  (update_compensation_row today r).(compensation_priority) = 1 /\
  (exists d, (update_compensation_row today r).(last_failed_date) = Some d /\ today <= d) /\
  (update_compensation_row today r).(failed_reason_backup)
    = match r.(last_exception_msg) with Some m => Some m | None => r.(failed_reason_backup) end.
Proof.
  intros H. unfold update_compensation_row, set_consecutive_failures,
    set_compensation_priority, set_last_failed_date, set_failed_reason_backup.
  simpl. rewrite H. simpl. split; [reflexivity|]. split; [reflexivity|]. split.
  - destruct (last_failed_date r) as [d|]; simpl.
    + destruct (Z.ltb_spec d today); simpl; eexists; split; try reflexivity; lia.
    + eexists; split; [reflexivity|lia].
  - destruct (last_exception_msg r); reflexivity.
Qed.

(** [get_failed_accounts] after a reset: an account in EXCEPTION/FAILED
    before the reset is PENDING after it, but still selected as failed
    (through [compensation_priority = 1] and a recent [last_failed_date])
    for up to two calendar days, with the same [last_error]. *)
Theorem reset_keeps_failed_accounts_selected (now now' : Z) (db : DB) (r : AccountRow)
    (Hin : In r db.(accounts)) (Hf : is_failed_status r.(status) = true)
    (Hd : date_of now' <= date_of now + 2) :
  exists r', In r' (get_failed_accounts now'
                      (snd (reset_all_accounts_to_pending now db)).(accounts)) /\
             r'.(account_id) = r.(account_id) /\ r'.(status) = PENDING /\
             r'.(compensation_priority) = 1 /\ last_error r' = last_error r.
Proof.
  destruct (update_compensation_row_failed (date_of now) r Hf)
    as [Hs [Hp [[d [Hl Hle]] Hbk]]].
  exists (reset_status_row now (update_compensation_row (date_of now) r)).
  assert (Hnp : status_eqb (status r) PENDING = false)
    by (destruct (status r); cbv in Hf; try discriminate Hf; reflexivity).
  split; [|split; [reflexivity|split; [reflexivity|split; [exact Hp|]]]].
  - unfold get_failed_accounts. apply filter_In. split.
    + simpl. unfold reset_status, update_compensation. rewrite map_map.
      apply in_map_iff. exists r. split; [|exact Hin].
      rewrite Hf. simpl. rewrite ?Hs, Hnp. reflexivity.
    + unfold failed_accounts_where, reset_status_row.
      cbn [status compensation_priority last_failed_date]. rewrite Hp, Hl. simpl.
      apply Z.leb_le. lia.
  - unfold last_error, reset_status_row. cbn [last_exception_msg failed_reason_backup].
    rewrite Hbk. reflexivity.
Qed.

Lemma reset_keeps_failed_accounts_selected_witness :
  let r := sample_row "A" EXCEPTION (Some "timeout") (Some 0) None in
  let db := {| accounts := [r]; history := []; ledger := [] |} in
  In r db.(accounts) /\ is_failed_status r.(status) = true /\
  date_of (sample_now + 2 * 86400) <= date_of sample_now + 2 /\
  exists r', In r' (get_failed_accounts (sample_now + 2 * 86400)
                      (snd (reset_all_accounts_to_pending sample_now db)).(accounts)) /\
             r'.(account_id) = r.(account_id) /\ r'.(status) = PENDING /\
             r'.(compensation_priority) = 1 /\ last_error r' = last_error r.
Proof.
  cbv zeta.
  assert (Hin : In (sample_row "A" EXCEPTION (Some "timeout") (Some 0) None)
                   [sample_row "A" EXCEPTION (Some "timeout") (Some 0) None])
    by (left; reflexivity).
  assert (Hd : date_of (sample_now + 2 * 86400) <= date_of sample_now + 2)
    by (vm_compute; discriminate).
  split; [exact Hin|]. split; [reflexivity|]. split; [exact Hd|].
  exact (reset_keeps_failed_accounts_selected sample_now (sample_now + 2 * 86400)
           {| accounts := [sample_row "A" EXCEPTION (Some "timeout") (Some 0) None];
              history := []; ledger := [] |}
           _ Hin eq_refl Hd).
Defined.

(** [mark_compensation_failed]: afterwards the account's PENDING records
    are exactly its PENDING records older than the 7-day window, which the
    call never touches; so an account with such an old record stays in
    the pending list. *)
Theorem mark_compensation_failed_leaves_old_pending :
  forall (now : Z) (id : string) (reason : option string) (db : DB),
    let h' := (snd (mark_compensation_failed now id reason db)).(history) in
    forall c, (In c h' /\ c.(c_account_id) = id /\ c.(compensation_status) = CPENDING)
              <-> (In c db.(history) /\ c.(c_account_id) = id
                   /\ c.(compensation_status) = CPENDING
                   /\ c.(failed_date) < date_of now - 7).
Proof.
  intros now id reason db. cbv zeta. intros c.
  assert (Hpw : forall c, c_account_id c = id -> compensation_status c = CPENDING ->
                  pending_in_window id (date_of now) c = Z.leb (date_of now - 7) (failed_date c)).
  { intros c0 H1 H2. unfold pending_in_window, in_window. rewrite H1, H2, String.eqb_refl.
    reflexivity. }
  unfold mark_compensation_failed.
  destruct (existsb (pending_in_window id (date_of now)) (history db)) eqn:E.
  - simpl. split.
    + intros [Hc [H1 H2]]. apply in_map_iff in Hc. destruct Hc as [c0 [Hc0 Hin]].
      destruct (pending_in_window id (date_of now) c0) eqn:P.
      * subst c. discriminate H2.
      * subst c0. rewrite Hpw in P by assumption. apply Z.leb_gt in P. auto.
    + intros [Hin [H1 [H2 H3]]]. split; [|auto]. apply in_map_iff. exists c.
      split; [|exact Hin]. rewrite Hpw by assumption.
      replace (Z.leb (date_of now - 7) (failed_date c)) with false
        by (symmetry; apply Z.leb_gt; lia). reflexivity.
  - assert (Hold : forall c, In c (history db) -> c_account_id c = id ->
                     compensation_status c = CPENDING -> failed_date c < date_of now - 7).
    { intros c0 Hin H1 H2. pose proof (existsb_false_in _ _ _ E Hin) as P.
      rewrite Hpw in P by assumption. apply Z.leb_gt in P. exact P. }
    destruct (existsb (same_key id (date_of now)) (history db)); simpl.
    + split; [intros [Hin [H1 H2]]; auto|tauto].
    + split.
      * intros [Hc [H1 H2]]. apply in_app_or in Hc. destruct Hc as [Hc|Hc]; [auto|].
        apply in_map_iff in Hc. destruct Hc as [r [<- _]]. discriminate H2.
      * intros [Hin [H1 [H2 _]]]. split; [apply in_or_app; left; exact Hin|auto].
Qed.



(** [mark_compensation_completed] twice at the same time writes what one
    call writes. *)
Theorem mark_compensation_completed_idempotent :
  forall (now : Z) (id : string) (db : DB),
    snd (mark_compensation_completed now id (snd (mark_compensation_completed now id db)))
    = snd (mark_compensation_completed now id db).
Proof.
  intros now id db. simpl. f_equal.
  - rewrite map_map. apply map_ext. intros r.
    destruct (String.eqb (account_id r) id) eqn:E; simpl; rewrite E; reflexivity.
  - rewrite map_map. apply map_ext. intros c.
    destruct (pending_in_window id (date_of now) c) eqn:E.
    + unfold pending_in_window at 1. simpl. rewrite andb_false_r, andb_false_l. reflexivity.
    + rewrite E. reflexivity.
Qed.

Lemma history_keys_upsert (now : Z) (id name : string) (d : Z) (reason : string)
    (h : list CompRow) :
  history_keys (upsert_pending now id name d reason h)
  = if existsb (same_key id d) h then history_keys h
    else (history_keys h ++ [(id, d)])%list.
Proof.
  unfold upsert_pending, history_keys.
  destruct (existsb (same_key id d) h).
  - rewrite map_map. apply map_ext. intros c. destruct (same_key id d c); reflexivity.
  - rewrite map_app. reflexivity.
Qed.

Lemma upsert_keeps_keys_unique (now : Z) (id name : string) (d : Z) (reason : string)
    (h : list CompRow) :
  NoDup (history_keys h) -> NoDup (history_keys (upsert_pending now id name d reason h)).
Proof.
  intros H. rewrite history_keys_upsert.
  destruct (existsb (same_key id d) h) eqn:E; [exact H|].
  apply NoDup_app; [exact H|constructor; [intros []|constructor]|].
  intros k Hk [<-|[]]. unfold history_keys in Hk. apply in_map_iff in Hk.
  destruct Hk as [c [Hc Hin]]. pose proof (existsb_false_in _ _ _ E Hin) as F.
  unfold same_key in F. injection Hc as H1 H2. rewrite H1, H2 in F.
  rewrite String.eqb_refl, Z.eqb_refl in F.
  discriminate F.
Qed.

Lemma flush_keeps_keys_unique (now d : Z) :
  forall (l : list AccountRow) (h : list CompRow),
    NoDup (history_keys h) ->
    NoDup (history_keys
             (fold_left (fun h r => upsert_pending now r.(account_id) r.(account_name)
                                      d (fallback_reason r) h) l h)).
Proof.
  induction l as [|r l IH]; intros h H; simpl; [exact H|].
  apply IH. apply upsert_keeps_keys_unique. exact H.
Qed.

(** The flush of [record_current_failures_to_compensation] and of the
    reset keeps the key [(account_id, failed_date)] of the compensation
    history unique: it never inserts a second record for a key. *)
Theorem failure_flush_keeps_keys_unique (now : Z) (db : DB)
    (H : NoDup (history_keys db.(history))) :
  NoDup (history_keys (snd (record_current_failures_to_compensation now db)).(history)) /\
  NoDup (history_keys (snd (reset_all_accounts_to_pending now db)).(history)).
Proof.
  split; simpl; unfold record_failed_accounts_for_compensation;
    apply flush_keeps_keys_unique; exact H.
Qed.

Lemma failure_flush_keeps_keys_unique_witness :
  let db := {| accounts := [sample_row "A" EXCEPTION None None None;
                            sample_row "A" FAILED None None None];
               history := []; ledger := [] |} in
  NoDup (history_keys db.(history)) /\
  NoDup (history_keys (snd (record_current_failures_to_compensation sample_now db)).(history)) /\
  NoDup (history_keys (snd (reset_all_accounts_to_pending sample_now db)).(history)).
Proof.
  cbv zeta.
  assert (H : NoDup (history_keys (@nil CompRow))) by constructor.
  split; [exact H|].
  exact (failure_flush_keeps_keys_unique sample_now
           {| accounts := [sample_row "A" EXCEPTION None None None;
                           sample_row "A" FAILED None None None];
              history := []; ledger := [] |} H).
Defined.

(* ------------------------------------------------------------------ *)
(** *** The groups of [get_pending_compensation_accounts] *)

Definition ckey (c : CompRow) : string * string := (c.(c_account_id), c.(c_account_name)).
Definition gkey (g : PendingGroup) : string * string := (g.(g_account_id), g.(g_account_name)).

Lemma same_group_iff (c : CompRow) (g : PendingGroup) :
  same_group c g = true <-> gkey g = ckey c.
Proof.
  unfold same_group, gkey, ckey. rewrite andb_true_iff, !String.eqb_eq. split.
  - intros [-> ->]. reflexivity.
  - intros H. injection H as -> ->. auto.
Qed.

Lemma add_to_groups_keys (c : CompRow) (gs : list PendingGroup) :
  map gkey (add_to_groups c gs)
  = if existsb (same_group c) gs then map gkey gs else (map gkey gs ++ [ckey c])%list.
Proof.
  induction gs as [|g tl IH]; simpl; [reflexivity|].
  destruct (same_group c g) eqn:E; simpl; [reflexivity|].
  rewrite IH. destruct (existsb (same_group c) tl); reflexivity.
Qed.

Lemma add_to_groups_keeps (c : CompRow) (gs : list PendingGroup) (g : PendingGroup) :
  In g gs -> same_group c g = false -> In g (add_to_groups c gs).
Proof.
  induction gs as [|g0 tl IH]; simpl; [tauto|].
  intros [<-|Hin] Hs.
  - rewrite Hs. left. reflexivity.
  - destruct (same_group c g0); [right; exact Hin|right; apply IH; assumption].
Qed.

Lemma add_to_groups_has (c : CompRow) (gs : list PendingGroup) :
  exists g, In g (add_to_groups c gs) /\ gkey g = ckey c.
Proof.
  assert (Hk : In (ckey c) (map gkey (add_to_groups c gs))).
  { rewrite add_to_groups_keys. destruct (existsb (same_group c) gs) eqn:E.
    - apply existsb_exists in E. destruct E as [g [Hg Hs]].
      apply same_group_iff in Hs. rewrite <- Hs. apply in_map. exact Hg.
    - apply in_or_app. right. left. reflexivity. }
  apply in_map_iff in Hk. destruct Hk as [g [Hg Hin]]. eauto.
Qed.

Lemma add_to_groups_cases (c : CompRow) (gs : list PendingGroup) :
  NoDup (map gkey gs) ->
  forall g', In g' (add_to_groups c gs) ->
    (In g' gs /\ same_group c g' = false)
    \/ (gkey g' = ckey c /\ first_failed_date g' = failed_date c
        /\ forall g, In g gs -> same_group c g = false)
    \/ (exists g, In g gs /\ same_group c g = true /\ gkey g' = gkey g
                  /\ first_failed_date g' = Z.min (first_failed_date g) (failed_date c)).
Proof.
  induction gs as [|g tl IH]; intros Hnd g' Hin; simpl in Hin.
  - destruct Hin as [<-|[]]. right; left. split; [reflexivity|split; [reflexivity|]].
    intros g [].
  - inversion Hnd as [|k ks Hnk Hnd']; subst.
    destruct (same_group c g) eqn:E.
    + destruct Hin as [<-|Hin].
      * right; right. exists g. repeat split; auto. left. reflexivity.
      * left. split; [right; exact Hin|].
        destruct (same_group c g') eqn:E'; [|reflexivity]. exfalso. apply Hnk.
        apply same_group_iff in E, E'. rewrite E, <- E'. apply in_map. exact Hin.
    + destruct Hin as [<-|Hin]; [left; split; [left; reflexivity|exact E]|].
      destruct (IH Hnd' g' Hin) as [[H1 H2]|[[H1 [H2 H3]]|[g0 [H1 H2]]]].
      * left. split; [right; exact H1|exact H2].
      * right; left. split; [exact H1|split; [exact H2|]].
        intros g0 [<-|Hg0]; [exact E|apply H3; exact Hg0].
      * right; right. exists g0. split; [right; exact H1|exact H2].
Qed.

(** What the groups built from the records [P] say about them. *)
Definition groups_inv (gs : list PendingGroup) (P : list CompRow) : Prop :=
  NoDup (map gkey gs) /\
  (forall g, In g gs ->
     (exists c, In c P /\ ckey c = gkey g /\ failed_date c = first_failed_date g) /\
     (forall c, In c P -> ckey c = gkey g -> first_failed_date g <= failed_date c)) /\
  (forall c, In c P -> exists g, In g gs /\ gkey g = ckey c).

Lemma groups_inv_add (gs : list PendingGroup) (P : list CompRow) (c : CompRow) :
  groups_inv gs P -> groups_inv (add_to_groups c gs) (P ++ [c])%list.
Proof.
  intros [Hnd [Hg Hc]]. split; [|split].
  - rewrite add_to_groups_keys. destruct (existsb (same_group c) gs) eqn:E; [exact Hnd|].
    apply NoDup_app; [exact Hnd|constructor; [intros []|constructor]|].
    intros k Hk [<-|[]]. apply in_map_iff in Hk. destruct Hk as [g [Hgk Hin]].
    pose proof (existsb_false_in _ _ _ E Hin) as F.
    rewrite <- not_true_iff_false, same_group_iff in F. contradiction.
  - intros g' Hin'.
    destruct (add_to_groups_cases c gs Hnd g' Hin')
      as [[H1 H2]|[[H1 [H2 H3]]|[g [H1 [H2 [H3 H4]]]]]].
    + destruct (Hg g' H1) as [[c0 [Hc0 [Hk0 Hd0]]] Hmin]. split.
      * exists c0. split; [apply in_or_app; left; exact Hc0|auto].
      * intros c1 Hc1 Hk1. apply in_app_or in Hc1. destruct Hc1 as [Hc1|[<-|[]]].
        -- apply Hmin; assumption.
        -- rewrite <- not_true_iff_false, same_group_iff in H2. congruence.
    + split.
      * exists c. split; [apply in_or_app; right; left; reflexivity|auto].
      * intros c1 Hc1 Hk1. apply in_app_or in Hc1. destruct Hc1 as [Hc1|[<-|[]]].
        -- exfalso. destruct (Hc c1 Hc1) as [g [Hg1 Hgk]].
           pose proof (H3 g Hg1) as F.
           rewrite <- not_true_iff_false, same_group_iff in F. congruence.
        -- lia.
    + destruct (Hg g H1) as [[c0 [Hc0 [Hk0 Hd0]]] Hmin].
      apply same_group_iff in H2. split.
      * destruct (Z.min_spec (first_failed_date g) (failed_date c)) as [[_ Hm]|[_ Hm]].
        -- exists c0. split; [apply in_or_app; left; exact Hc0|]. split; [congruence|lia].
        -- exists c. split; [apply in_or_app; right; left; reflexivity|]. split; [congruence|lia].
      * intros c1 Hc1 Hk1. apply in_app_or in Hc1. destruct Hc1 as [Hc1|[<-|[]]].
        -- pose proof (Hmin c1 Hc1 ltac:(congruence)). lia.
        -- lia.
  - intros c1 Hc1. apply in_app_or in Hc1. destruct Hc1 as [Hc1|[<-|[]]].
    + destruct (Hc c1 Hc1) as [g [Hg1 Hgk]].
      destruct (same_group c g) eqn:E.
      * apply same_group_iff in E. rewrite <- Hgk, E. apply add_to_groups_has.
      * exists g. split; [apply add_to_groups_keeps; assumption|exact Hgk].
    + apply add_to_groups_has.
Qed.

Lemma groups_inv_fold (l : list CompRow) :
  forall gs P, groups_inv gs P ->
    groups_inv (fold_left (fun gs c => add_to_groups c gs) l gs) (P ++ l)%list.
Proof.
  induction l as [|c l IH]; intros gs P H; simpl.
  - rewrite app_nil_r. exact H.
  - replace (P ++ c :: l)%list with ((P ++ [c]) ++ l)%list
      by (rewrite <- app_assoc; reflexivity).
    apply IH. apply groups_inv_add. exact H.
Qed.

Lemma pending_groups_inv (h : list CompRow) :
  groups_inv (pending_groups h)
    (filter (fun c => comp_status_eqb c.(compensation_status) CPENDING) h).
Proof.
  unfold pending_groups.
  change (filter (fun c => comp_status_eqb c.(compensation_status) CPENDING) h)
    with ([] ++ filter (fun c => comp_status_eqb c.(compensation_status) CPENDING) h)%list.
  apply groups_inv_fold. split; [constructor|]. split; [intros g []|intros c []].
Qed.

Lemma comp_status_eqb_true (a b : CompStatus) : comp_status_eqb a b = true <-> a = b.
Proof. destruct a, b; simpl; split; congruence. Qed.

Lemma in_pending_filter (h : list CompRow) (c : CompRow) :
  In c (filter (fun c => comp_status_eqb c.(compensation_status) CPENDING) h)
  <-> In c h /\ c.(compensation_status) = CPENDING.
Proof. rewrite filter_In, comp_status_eqb_true. reflexivity. Qed.

Lemma group_leb_trans : RelationClasses.Transitive (fun a b => GroupOrder.leb a b = true).
Proof.
  intros a b c. unfold GroupOrder.leb. rewrite !orb_true_iff, !andb_true_iff,
    !Z.ltb_lt, !Z.eqb_eq, !Z.leb_le. lia.
Qed.

Lemma StronglySorted_weaken {A} (R R' : A -> A -> Prop) (l : list A) :
  (forall a b, R a b -> R' a b) -> StronglySorted R l -> StronglySorted R' l.
Proof.
  intros HR. induction 1 as [|a l _ IH Hall]; constructor; [exact IH|].
  eapply Forall_impl; [|exact Hall]. exact (HR a).
Qed.

(** Membership in the unlimited pending list. *)
Lemma pending_member (h : list CompRow) (id name : string) :
  In (id, name) (get_pending_compensation_accounts 0 h)
  <-> exists c, In c h /\ c.(c_account_id) = id /\ c.(c_account_name) = name
                /\ c.(compensation_status) = CPENDING.
Proof.
  destruct (pending_groups_inv h) as [_ [Hg Hc]].
  unfold get_pending_compensation_accounts. simpl. rewrite in_map_iff. split.
  - intros [g [Hk Hin]].
    apply (Permutation_in _ (Permutation_sym (GroupSort.Permuted_sort _))) in Hin.
    destruct (Hg g Hin) as [[c [Hc' [Hk' _]]] _].
    apply in_pending_filter in Hc'. destruct Hc' as [Hc1 Hc2].
    exists c. unfold ckey, gkey in Hk'. rewrite Hk in Hk'. injection Hk' as -> ->. auto.
  - intros [c [Hin [<- [<- Hs]]]].
    destruct (Hc c (proj2 (in_pending_filter h c) (conj Hin Hs))) as [g [Hg1 Hk]].
    exists g. split; [exact Hk|]. apply Permutation_in with (1 := GroupSort.Permuted_sort _).
    exact Hg1.
Qed.


(** [get_pending_compensation_accounts] lists the accounts by the date of
    their oldest PENDING record ([MIN(failed_date)]), oldest first. *)
Theorem pending_accounts_oldest_first :
  forall (h : list CompRow),
    exists gs,
      get_pending_compensation_accounts 0 h
        = map (fun g => (g.(g_account_id), g.(g_account_name))) gs /\
      StronglySorted (fun a b => a.(first_failed_date) <= b.(first_failed_date)) gs /\
      forall g, In g gs ->
        (exists c, In c h /\ c.(compensation_status) = CPENDING /\
                   c.(c_account_id) = g.(g_account_id) /\
                   c.(c_account_name) = g.(g_account_name) /\
                   c.(failed_date) = g.(first_failed_date)) /\
        (forall c, In c h -> c.(compensation_status) = CPENDING ->
                   c.(c_account_id) = g.(g_account_id) ->
                   c.(c_account_name) = g.(g_account_name) ->
                   g.(first_failed_date) <= c.(failed_date)).
Proof.
  intros h. exists (GroupSort.sort (pending_groups h)).
  split; [reflexivity|]. split.
  - apply (StronglySorted_weaken (fun a b => GroupOrder.leb a b = true)).
    + intros a b. unfold GroupOrder.leb.
      rewrite orb_true_iff, andb_true_iff, Z.ltb_lt, Z.eqb_eq. lia.
    + apply GroupSort.StronglySorted_sort. exact group_leb_trans.
  - destruct (pending_groups_inv h) as [_ [Hg _]].
    intros g Hin.
    apply (Permutation_in _ (Permutation_sym (GroupSort.Permuted_sort _))) in Hin.
    destruct (Hg g Hin) as [[c [Hc [Hk Hd]]] Hmin]. split.
    + apply in_pending_filter in Hc. destruct Hc as [Hc1 Hc2].
      unfold ckey, gkey in Hk. injection Hk as H1 H2. exists c. auto.
    + intros c1 Hc1 Hs H1 H2. apply Hmin.
      * apply in_pending_filter. auto.
      * unfold ckey, gkey. rewrite H1, H2. reflexivity.
Qed.

(** After [mark_compensation_completed(X)], X is still listed by
    [get_pending_compensation_accounts] exactly when it has a PENDING
    record older than the 7-day window. *)
Theorem completed_account_leaves_pending_list :
  forall (now : Z) (id name : string) (db : DB),
    In (id, name) (get_pending_compensation_accounts 0
                     (snd (mark_compensation_completed now id db)).(history))
    <-> exists c, In c db.(history) /\ c.(c_account_id) = id /\ c.(c_account_name) = name
                  /\ c.(compensation_status) = CPENDING
                  /\ c.(failed_date) < date_of now - 7.
Proof.
  intros now id name db. rewrite pending_member. simpl. split.
  - intros [c' [Hin [H1 [H2 H3]]]]. apply in_map_iff in Hin. destruct Hin as [c [Hc Hin]].
    destruct (pending_in_window id (date_of now) c) eqn:P.
    + subst c'. discriminate H3.
    + subst c'. exists c. repeat split; auto.
      unfold pending_in_window, in_window in P. rewrite H1, H3, String.eqb_refl in P.
      simpl in P. apply Z.leb_gt in P. exact P.
  - intros [c [Hin [H1 [H2 [H3 H4]]]]]. exists c. split; [|auto].
    apply in_map_iff. exists c. split; [|exact Hin].
    unfold pending_in_window, in_window.
    replace (Z.leb (date_of now - 7) (failed_date c)) with false
      by (symmetry; apply Z.leb_gt; lia).
    rewrite andb_false_r. reflexivity.
Qed.

(* ================================================================== *)
(** ** Further properties of LoopCrawler *)

Lemma existsb_eqb_in (x : string) (l : list string) :
  existsb (String.eqb x) l = true <-> In x l.
Proof.
  rewrite existsb_exists. split.
  - intros [y [Hy E]]. apply String.eqb_eq in E. subst y. exact Hy.
  - intros H. exists x. split; [exact H|apply String.eqb_refl].
Qed.

Lemma is_full_success_spec :
  forall (attempted : list Attempt) (accs : list AccountRow),
    is_full_success attempted accs = true
    <-> (exists r, In r accs /\ In r.(account_id) (attempted_ids attempted)) /\
        (forall r, In r accs -> In r.(account_id) (attempted_ids attempted) ->
                   r.(status) = COMPLETED).
Proof.
  intros attempted accs.
  assert (Hrows : forall r,
            In r (filter (fun r => existsb (String.eqb r.(account_id))
                                     (attempted_ids attempted)) accs)
            <-> In r accs /\ In r.(account_id) (attempted_ids attempted)).
  { intros r. rewrite filter_In, existsb_eqb_in. reflexivity. }
  assert (Hgen :
    match filter (fun r => existsb (String.eqb r.(account_id)) (attempted_ids attempted)) accs with
    | [] => false
    | _ => forallb (fun r => status_eqb r.(status) COMPLETED)
             (filter (fun r => existsb (String.eqb r.(account_id))
                                 (attempted_ids attempted)) accs)
    end = true
    <-> (exists r, In r accs /\ In r.(account_id) (attempted_ids attempted)) /\
        (forall r, In r accs -> In r.(account_id) (attempted_ids attempted) ->
                   r.(status) = COMPLETED)).
  { destruct (filter _ accs) as [|r0 rs] eqn:F.
    - split; [discriminate|]. intros [[r Hr] _]. apply Hrows in Hr. destruct Hr.
    - rewrite forallb_forall. split.
      + intros H. split.
        * exists r0. apply Hrows. left. reflexivity.
        * intros r Hr Hi. apply status_eqb_true. apply H. apply Hrows. auto.
      + intros [_ H] r Hr. apply status_eqb_true. apply Hrows in Hr.
        destruct Hr as [Hr Hi]. apply H; assumption. }
  unfold is_full_success. destruct attempted as [|a l].
  - split; [discriminate|]. intros [[r [_ []]] _].
  - destruct (attempted_ids (a :: l)) as [|i is] eqn:E.
    + split; [discriminate|]. intros [[r [_ Hi]] _]. destruct Hi.
    + exact Hgen.
Qed.
(** [_is_full_success] holds exactly when some status row belongs to an
    attempted account and every such row is COMPLETED (attempted accounts
    with no row are not looked at). *)
Theorem is_full_success_iff :
  forall (attempted : list Attempt) (accs : list AccountRow),
    is_full_success attempted accs = true
    <-> (exists r, In r accs /\ In r.(account_id) (attempted_ids attempted)) /\
        (forall r, In r accs -> In r.(account_id) (attempted_ids attempted) ->
                   r.(status) = COMPLETED).
Proof. exact is_full_success_spec. Qed.


Lemma fold_effects_ledger (now : Z) (f : Attempt -> Effect) :
  (forall a db, (apply_effect now db (f a)).(ledger) = db.(ledger)) ->
  forall l db, (fold_left (apply_effect now) (map f l) db).(ledger) = db.(ledger).
Proof.
  intros Hf l. induction l as [|a l IH]; intros db; simpl; [reflexivity|].
  rewrite IH. apply Hf.
Qed.

Lemma mark_failed_ledger (now : Z) (id : string) (reason : option string) (db : DB) :
  (snd (mark_compensation_failed now id reason db)).(ledger) = db.(ledger).
Proof.
  unfold mark_compensation_failed.
  destruct (existsb _ _); [reflexivity|]. destruct (existsb _ _); reflexivity.
Qed.

(** The compensation mode of [_run_cmd] never writes the ledger. *)
Lemma run_cmd_compensation_ledger (now : Z) (tm se : bool) (att : list Attempt)
    (o : Outcome) (db : DB) :
  (run_cmd_db now tm se compensation att o db).(ledger) = db.(ledger).
Proof.
  unfold run_cmd_db, run_cmd. destruct se; [|reflexivity]. simpl.
  destruct o as [z| |e]; [destruct z|..];
    apply fold_effects_ledger; intros a d; simpl;
    solve [reflexivity | apply mark_failed_ledger].
Qed.

(** The full mode of [_run_cmd] adds at most one ledger entry, and
    exactly one outside test mode. *)
Lemma run_cmd_full_ledger (now : Z) (tm : bool) (att : list Attempt) (o : Outcome)
    (db : DB) :
  exists added, (run_cmd_db now tm true full att o db).(ledger) = (db.(ledger) ++ added)%list
                /\ (length added <= 1)%nat /\ (tm = false -> length added = 1%nat).
Proof.
  unfold run_cmd_db, run_cmd. simpl.
  destruct o as [z| |e]; [destruct z|..]; simpl;
    try (eexists; split; [reflexivity|split; [simpl; lia|reflexivity]]).
  destruct (is_full_success att (accounts db)), tm; simpl;
    try (exists []; split; [symmetry; apply app_nil_r|split; [simpl; lia|discriminate]]);
    eexists; (split; [reflexivity|split; [simpl; lia|reflexivity]]).
Qed.

Lemma reset_ledger (now : Z) (db : DB) :
  (snd (reset_all_accounts_to_pending now db)).(ledger) = db.(ledger).
Proof. reflexivity. Qed.

(** [run_one_round] (not a dry run), for a crawl subprocess that does not
    write the ledger table itself: the round appends at most one ledger
    entry, exactly one outside test mode when the target list and the
    crawl script exist, and none when either is missing. *)
Theorem run_one_round_ledger (crawler : Crawler)
    (Hc : forall att db, (snd (crawler att db)).(ledger) = db.(ledger)) :
  forall (now : Z) (excel_basename : string) (target_exists script_exists : bool)
         (attempted_full : list Attempt) (db : DB),
    exists added,
      (run_one_round crawler now false excel_basename target_exists script_exists
         attempted_full db).(ledger) = (db.(ledger) ++ added)%list /\
      (length added <= 1)%nat /\
      (target_exists = true -> script_exists = true ->
       is_test_mode_of excel_basename = false -> length added = 1%nat) /\
      (target_exists = false \/ script_exists = false -> added = []).
Proof.
  intros now base tex sex att db. unfold run_one_round.
  set (db1 := snd (reset_all_accounts_to_pending now db)).
  set (pending := map to_attempt (get_pending_compensation_accounts 0 (history db1))).
  set (tm := is_test_mode_of base).
  set (db2 := match pending with
              | [] => db1
              | _ :: _ =>
                  if false then
                    fold_left (fun d r => snd (mark_compensation_completed now r.(a_id) d))
                      pending db1
                  else invoke crawler now tm sex compensation pending db1
              end).
  assert (H2 : ledger db2 = ledger db).
  { subst db2. destruct pending; [reflexivity|]. simpl. unfold invoke.
    destruct sex; [|reflexivity].
    match goal with |- context [crawler ?x db1] =>
      destruct (crawler x db1) as [o d] eqn:E end.
    rewrite run_cmd_compensation_ledger.
    change d with (snd (o, d)). rewrite <- E, Hc. reflexivity. }
  destruct tex; simpl.
  - unfold invoke. destruct sex.
    + destruct (crawler att db2) as [o d] eqn:E.
      destruct (run_cmd_full_ledger now tm att o d) as [added [Ha [Hl Ht]]].
      exists added. rewrite Ha.
      change d with (snd (o, d)). rewrite <- E, Hc, H2.
      split; [reflexivity|]. split; [exact Hl|]. split.
      * intros _ _ Htm. apply Ht. exact Htm.
      * intros [H|H]; discriminate H.
    + exists []. rewrite H2, app_nil_r. split; [reflexivity|]. split; [simpl; lia|].
      split; [discriminate|reflexivity].
  - exists []. rewrite H2, app_nil_r. split; [reflexivity|]. split; [simpl; lia|].
    split; [discriminate|reflexivity].
Qed.

Definition idle_crawler : Crawler := fun _ db => (Exited 0, db).

Lemma run_one_round_ledger_witness :
  (forall att db, (snd (idle_crawler att db)).(ledger) = db.(ledger)) /\
  exists added,
    (run_one_round idle_crawler sample_now false "target_articles.xlsx" true true
       [sample_attempt "A"] (sample_db_comp EXCEPTION)).(ledger)
      = ((sample_db_comp EXCEPTION).(ledger) ++ added)%list /\
    (length added <= 1)%nat /\
    (true = true -> true = true ->
     is_test_mode_of "target_articles.xlsx" = false -> length added = 1%nat) /\
    (true = false \/ true = false -> added = []).
Proof.
  assert (Hc : forall att db, (snd (idle_crawler att db)).(ledger) = db.(ledger))
    by reflexivity.
  split; [exact Hc|].
  exact (run_one_round_ledger idle_crawler Hc sample_now "target_articles.xlsx" true true
           [sample_attempt "A"] (sample_db_comp EXCEPTION)).
Defined.

Lemma fold_mark_completed_ledger (now : Z) :
  forall (ps : list Attempt) (db : DB),
    (fold_left (fun d r => snd (mark_compensation_completed now r.(a_id) d)) ps db).(ledger)
    = db.(ledger).
Proof. induction ps as [|p ps IH]; intros db; simpl; [reflexivity|]. rewrite IH. reflexivity. Qed.

Lemma fold_mark_completed_status (now : Z) :
  forall (ps : list Attempt) (db : DB),
    Forall (fun r => r.(status) = PENDING) db.(accounts) ->
    Forall (fun r => r.(status) = PENDING)
      (fold_left (fun d r => snd (mark_compensation_completed now r.(a_id) d)) ps db)
        .(accounts).
Proof.
  induction ps as [|p ps IH]; intros d Hd; simpl; [exact Hd|].
  apply IH. simpl. apply Forall_map. eapply Forall_impl; [|exact Hd].
  intros r Hr. destruct (String.eqb (account_id r) (a_id p)); exact Hr.
Qed.

Lemma fold_mark_completed_history (now : Z) :
  forall (ps : list Attempt) (db : DB) (c : CompRow),
    In c (fold_left (fun d r => snd (mark_compensation_completed now r.(a_id) d)) ps db)
           .(history) ->
    c.(compensation_status) = CPENDING ->
    In c db.(history) /\
    (~ In c.(c_account_id) (map a_id ps) \/ c.(failed_date) < date_of now - 7).
Proof.
  induction ps as [|p ps IH]; intros db c Hin Hs; simpl in *; [auto|].
  destruct (IH _ c Hin Hs) as [Hin1 Hor]. simpl in Hin1.
  apply in_map_iff in Hin1. destruct Hin1 as [c0 [Hc0 Hin0]].
  destruct (pending_in_window (a_id p) (date_of now) c0) eqn:P.
  - subst c. discriminate Hs.
  - subst c0. split; [exact Hin0|].
    destruct Hor as [Hn|Ho]; [|right; exact Ho].
    unfold pending_in_window, in_window in P. rewrite Hs in P. simpl in P.
    destruct (String.eqb_spec (c_account_id c) (a_id p)) as [E|E].
    + simpl in P. right. apply Z.leb_gt in P. exact P.
    + left. intros [H|H]; [congruence|contradiction].
Qed.

(** A dry run of [run_one_round]: it never runs the crawler (the round is
    the same for any crawler); afterwards every row is PENDING, no PENDING
    compensation record is left inside the 7-day window, and the ledger
    gets one [finished] entry when the target list exists and none
    otherwise. *)
Theorem dry_run_round :
  forall (crawler : Crawler) (now : Z) (excel_basename : string)
         (target_exists script_exists : bool) (attempted_full : list Attempt) (db : DB),
    let db' := run_one_round crawler now true excel_basename target_exists script_exists
                 attempted_full db in
    (forall crawler', run_one_round crawler' now true excel_basename target_exists
                        script_exists attempted_full db = db') /\
    Forall (fun r => r.(status) = PENDING) db'.(accounts) /\
    (forall c, In c db'.(history) -> c.(compensation_status) = CPENDING ->
               c.(failed_date) < date_of now - 7) /\
    db'.(ledger) = (db.(ledger) ++ if target_exists
                                    then [{| finished_date := now; l_status := finished |}]
                                    else [])%list.
Proof.
  intros crawler now base tex sex att db. cbv zeta.
  split; [intros crawler'; reflexivity|].
  unfold run_one_round.
  set (db1 := snd (reset_all_accounts_to_pending now db)).
  set (pending := map to_attempt (get_pending_compensation_accounts 0 (history db1))).
  assert (Hd2 : match pending with
                | [] => db1
                | _ :: _ => if true then
                              fold_left (fun d r => snd (mark_compensation_completed now r.(a_id) d))
                                pending db1
                            else invoke crawler now (is_test_mode_of base) sex compensation
                                   pending db1
                end
                = fold_left (fun d r => snd (mark_compensation_completed now r.(a_id) d))
                    pending db1) by (destruct pending; reflexivity).
  rewrite Hd2.
  set (db2 := fold_left (fun d r => snd (mark_compensation_completed now r.(a_id) d))
                pending db1).
  assert (Hacc : Forall (fun r => r.(status) = PENDING) db2.(accounts)).
  { subst db2. apply fold_mark_completed_status. apply reset_status_all_pending. }
  assert (Hhist : forall c, In c db2.(history) -> c.(compensation_status) = CPENDING ->
                            c.(failed_date) < date_of now - 7).
  { intros c Hin Hs. destruct (fold_mark_completed_history now pending db1 c Hin Hs)
      as [Hin1 [Hn|Ho]]; [|exact Ho].
    exfalso. apply Hn. subst pending. rewrite map_map.
    apply (in_map (fun x => a_id (to_attempt x)) _ (c_account_id c, c_account_name c)).
    apply pending_member. exists c. auto. }
  assert (Hl : db2.(ledger) = db.(ledger)).
  { subst db2. rewrite fold_mark_completed_ledger. reflexivity. }
  split; [destruct tex; exact Hacc|]. split.
  - destruct tex; [|exact Hhist]. exact Hhist.
  - destruct tex; simpl; rewrite Hl; [reflexivity|symmetry; apply app_nil_r].
Qed.

(* ================================================================== *)
(** ** [get_accounts_summary] *)

Lemma count_status_cons (st : Status) (r : AccountRow) (l : list AccountRow) :
  count_status st (r :: l) = (if status_eqb r.(status) st then 1 else 0) + count_status st l.
Proof.
  unfold count_status, get_all_accounts_by_status. cbn [filter].
  destruct (status_eqb (status r) st); cbn [length]; lia.
Qed.

Lemma counts_sum (l : list AccountRow) :
  count_status ACTIVE l + count_status COMPLETED l + count_status EXCEPTION l
  + count_status FAILED l + count_status PENDING l + count_status PROCESSING l
  + count_status RETRYING l = Z.of_nat (length l).
Proof.
  induction l as [|r l IH]; [reflexivity|].
  rewrite !count_status_cons. simpl length. rewrite Nat2Z.inj_succ.
  destruct (status r); cbn [status_eqb]; lia.
Qed.

Lemma fold_sum_filter_pos (l : list (string * Z)) :
  Forall (fun p => 0 <= snd p) l ->
  forall a, fold_left (fun acc p => acc + snd p) (filter (fun p => Z.ltb 0 (snd p)) l) a
            = fold_left (fun acc p => acc + snd p) l a.
Proof.
  induction 1 as [|p l Hp _ IH]; intros a; simpl; [reflexivity|].
  destruct (Z.ltb_spec 0 (snd p)); simpl; rewrite IH; [reflexivity|].
  f_equal. lia.
Qed.

Lemma dict_get_last (d : list (string * Z)) (k : string) (v : Z) :
  dict_get (d ++ [(k, v)])%list k = Some v.
Proof. unfold dict_get. rewrite fold_left_app. simpl. rewrite String.eqb_refl. reflexivity. Qed.

Lemma dict_get_last_other (d : list (string * Z)) (k k' : string) (v : Z) :
  k <> k' -> dict_get (d ++ [(k, v)])%list k' = dict_get d k'.
Proof.
  intros H. unfold dict_get. rewrite fold_left_app. simpl.
  rewrite string_eqb_neq by exact H. reflexivity.
Qed.

(** [get_accounts_summary]: [TOTAL] is the number of rows, and each status
    is a key exactly when some row has it, with its number of rows. *)
Theorem accounts_summary_counts :
  forall (accs : list AccountRow),
    dict_get (get_accounts_summary accs) "TOTAL" = Some (Z.of_nat (length accs)) /\
    forall st, dict_get (get_accounts_summary accs) (status_str st)
               = if Z.ltb 0 (count_status st accs) then Some (count_status st accs)
                 else None.
Proof.
  intros accs. unfold get_accounts_summary. cbv zeta. split.
  - rewrite dict_get_last. f_equal. rewrite fold_sum_filter_pos.
    + simpl. rewrite <- counts_sum. reflexivity.
    + unfold statuses_by_name. simpl.
      repeat constructor; simpl; unfold count_status; lia.
  - intros st. rewrite dict_get_last_other by (destruct st; discriminate).
    unfold dict_get, statuses_by_name.
    destruct st; cbn [map filter fst snd];
      repeat match goal with |- context [Z.ltb 0 ?x] => destruct (Z.ltb 0 x) end;
      reflexivity.
Qed.

(** [update_last_crawl_time] followed by the next round's reset: the
    ACTIVE mark does not survive the reset, the account earns no
    compensation record and its compensation columns are left as they
    were. *)
Theorem crawl_time_then_reset :
  forall (now now' : Z) (id : string) (db : DB),
    let db1 := snd (update_last_crawl_time now id db) in
    let db2 := snd (reset_all_accounts_to_pending now' db1) in
    match get_account_status id db.(accounts) with
    | None => db1 = db
    | Some r =>
        exists r1 r2,
          get_account_status id db1.(accounts) = Some r1 /\
          r1.(status) = ACTIVE /\ r1.(last_update_time) = now /\
          get_account_status id db2.(accounts) = Some r2 /\
          r2.(status) = PENDING /\ r2.(last_update_time) = now' /\
          r2.(compensation_priority) = r.(compensation_priority) /\
          r2.(consecutive_failures) = r.(consecutive_failures) /\
          r2.(last_failed_date) = r.(last_failed_date) /\
          r2.(failed_reason_backup) = r.(failed_reason_backup)
    end /\
    filter (fun c => String.eqb c.(c_account_id) id) db2.(history)
    = filter (fun c => String.eqb c.(c_account_id) id) db.(history).
Proof.
  intros now now' id db. cbv zeta. unfold update_last_crawl_time.
  match goal with |- context [update_where_id id ?f db] =>
    destruct (update_where_id_spec id f db (fun r => eq_refl)) as [_ [Hn [Hg [_ [Hh _]]]]];
    set (db1 := update_where_id id f db) in * end.
  split.
  - destruct (get_account_status id (accounts db)) as [r|] eqn:G.
    + rewrite reset_get, Hg. do 2 eexists.
      split; [reflexivity|]. simpl. repeat split; reflexivity.
    + apply Hn. reflexivity.
  - rewrite reset_history_other.
    + rewrite Hh. reflexivity.
    + intros r Hr Hid. subst db1. unfold update_where_id in Hr. simpl in Hr.
      apply in_map_iff in Hr. destruct Hr as [r0 [<- _]].
      destruct (String.eqb (account_id r0) id) eqn:E; [reflexivity|].
      simpl in Hid. subst id. rewrite String.eqb_refl in E. discriminate E.
Qed.

(* ================================================================== *)
(** ** Further properties of the proxy lease *)

Module LeaseMore.
Import Lease LeaseFacts.

(** The upstream address held in the state: none, or ["http://" ++ server]. *)
Definition proxy_shape (s : State) : Prop :=
  match s.(upstream_proxy) with
  | None => True
  | Some u => exists server, u = ("http://" ++ server)%string
  end.

Lemma attempts_upstream (cfg : Config) (resp : nat -> Z * Response) :
  forall fuel i s,
    (snd (fst (attempts cfg resp i fuel s))).(upstream_proxy) = s.(upstream_proxy) \/
    exists server, (snd (fst (attempts cfg resp i fuel s))).(upstream_proxy)
                   = Some ("http://" ++ server)%string.
Proof.
  induction fuel as [|f IH]; intros i s; simpl; [left; reflexivity|].
  destruct (resp i) as [t r].
  destruct (parse_response r) as [[server|]|u]; simpl; [right; eauto| |left; reflexivity].
  destruct (IH (S i) s) as [H|H];
    destruct (attempts cfg resp (S i) f s) as [[res s1] n1]; simpl in *; auto.
Qed.

Lemma step_post (cfg : Config) (s : State) (o : Op) :
  step cfg s o = s \/ exists resp, step cfg s o = snd (fst (get_new_proxy cfg resp s)).
Proof.
  destruct o as [now resp|now resp|resp]; simpl; [| |right; eauto].
  - unfold get_current_proxy, refresh_proxy_if_needed.
    destruct (enabled s); simpl; [|left; reflexivity].
    destruct (is_proxy_valid cfg now s); simpl; [left; reflexivity|].
    right. exists resp. destruct (get_new_proxy cfg resp s) as [[[| |] s'] n]; reflexivity.
  - unfold refresh_proxy_if_needed.
    destruct (enabled s); simpl; [|left; reflexivity].
    destruct (is_proxy_valid cfg now s); simpl; [left; reflexivity|].
    right. exists resp. destruct (get_new_proxy cfg resp s) as [[[| |] s'] n]; reflexivity.
Qed.

(** Whatever the provider answers, the manager only ever holds no
    upstream address or one of the form ["http://" ++ server]. *)
Theorem run_keeps_proxy_shape (cfg : Config) (s : State) (ops : list Op)
    (H : proxy_shape s) :
  proxy_shape (run cfg s ops).
Proof.
  unfold run. revert s H. induction ops as [|o ops IH]; intros s H; simpl; [exact H|].
  apply IH. destruct (step_post cfg s o) as [E|[resp E]]; rewrite E; [exact H|].
  unfold get_new_proxy, proxy_shape in *.
  destruct (attempts_upstream cfg resp (max_retries cfg) O s) as [U|[server U]];
    rewrite U; [exact H|eauto].
Qed.

Lemma attempts_crash_at (cfg : Config) (resp : nat -> Z * Response) (s : State) :
  forall k i fuel,
    (k < fuel)%nat ->
    (forall j, (j < k)%nat -> parse_response (snd (resp (i + j)%nat)) = inl None) ->
    parse_response (snd (resp (i + k)%nat)) = inr tt ->
    attempts cfg resp i fuel s = (RCrash, s, S k).
Proof.
  induction k as [|k IH]; intros i fuel Hk Hb Ha; (destruct fuel as [|f]; [lia|]); simpl.
  - rewrite Nat.add_0_r in Ha. destruct (resp i) as [t r]. simpl in Ha. rewrite Ha.
    reflexivity.
  - pose proof (Hb O ltac:(lia)) as H0. rewrite Nat.add_0_r in H0.
    destruct (resp i) as [t r]. simpl in H0. rewrite H0.
    rewrite (IH (S i) f); [reflexivity|lia| |].
    + intros j Hj. replace (S i + j)%nat with (i + S j)%nat by lia. apply Hb. lia.
    + replace (S i + k)%nat with (i + S k)%nat by lia. exact Ha.
Qed.

(** A refresh whose attempt [k] gets a decoded answer that is not a dict
    (after [k] answers without a usable address): the error escapes
    [get_current_proxy] after [k + 1] requests, and the state is left as
    it was; in particular no failed round is counted. *)
Theorem non_dict_answer_escapes (cfg : Config) (now : Z) (resp : nat -> Z * Response)
    (s : State) (k : nat)
    (He : s.(enabled) = true) (Hv : is_proxy_valid cfg now s = false)
    (Hk : (k < cfg.(max_retries))%nat)
    (Hb : forall j, (j < k)%nat -> parse_response (snd (resp j)) = inl None)
    (Ha : parse_response (snd (resp k)) = inr tt) :
  get_current_proxy cfg now resp s = mkCall (inr tt) s (S k) true.
Proof.
  rewrite (get_current_enabled cfg now resp s He), Hv. unfold get_new_proxy.
  rewrite (attempts_crash_at cfg resp s k O (max_retries cfg) Hk Hb Ha). reflexivity.
Qed.

Lemma attempts_requests_le (cfg : Config) (resp : nat -> Z * Response) :
  forall fuel i s, (snd (attempts cfg resp i fuel s) <= fuel)%nat.
Proof.
  induction fuel as [|f IH]; intros i s; simpl; [lia|].
  destruct (resp i) as [t r].
  destruct (parse_response r) as [[server|]|u]; simpl; [lia| |lia].
  specialize (IH (S i) s). destruct (attempts cfg resp (S i) f s) as [[res s1] n1].
  simpl in *. lia.
Qed.

(** One call of [get_current_proxy] or [_refresh_proxy_if_needed] sends
    at most [max_retries] requests to the provider, and none when it does
    not refresh. *)
Theorem requests_bounded :
  forall (cfg : Config) (now : Z) (resp : nat -> Z * Response) (s : State),
    ((get_current_proxy cfg now resp s).(requests) <= cfg.(max_retries))%nat /\
    ((refresh_proxy_if_needed cfg now resp s).(requests) <= cfg.(max_retries))%nat /\
    ((get_current_proxy cfg now resp s).(refreshed) = false ->
     (get_current_proxy cfg now resp s).(requests) = O).
Proof.
  intros cfg now resp s.
  assert (Hn := attempts_requests_le cfg resp (max_retries cfg) O s).
  unfold get_current_proxy, refresh_proxy_if_needed, get_new_proxy in *.
  destruct (enabled s); simpl; [|split; [lia|split; [lia|reflexivity]]].
  destruct (is_proxy_valid cfg now s); simpl; [split; [lia|split; [lia|reflexivity]]|].
  destruct (attempts cfg resp O (max_retries cfg) s) as [[[| |] s'] n]; simpl in *;
    (split; [lia|split; [lia|discriminate]]).
Qed.

End LeaseMore.

(** From the initial state, a successful refresh followed by failed ones. *)
Lemma run_keeps_proxy_shape_witness :
  LeaseMore.proxy_shape Lease.fresh /\
  LeaseMore.proxy_shape
    (Lease.run Lease.sample_cfg Lease.fresh
       [Lease.OpGetNew (Lease.good_resp 100); Lease.OpGetCurrent 200 Lease.bad_resp]).
Proof.
  assert (H : LeaseMore.proxy_shape Lease.fresh) by exact I.
  split; [exact H|].
  exact (LeaseMore.run_keeps_proxy_shape Lease.sample_cfg Lease.fresh
           [Lease.OpGetNew (Lease.good_resp 100); Lease.OpGetCurrent 200 Lease.bad_resp] H).
Defined.

(** The provider first fails to answer, then answers with a JSON list
    that is not a dict. *)
Definition non_dict_second : nat -> Z * Lease.Response :=
  fun j => match j with O => (0, Lease.RequestError) | _ => (0, Lease.JsonNotDict) end.

Lemma non_dict_answer_escapes_witness :
  Lease.fresh.(Lease.enabled) = true /\
  Lease.is_proxy_valid Lease.sample_cfg 100 Lease.fresh = false /\
  (1 < Lease.sample_cfg.(Lease.max_retries))%nat /\
  (forall j, (j < 1)%nat -> Lease.parse_response (snd (non_dict_second j)) = inl None) /\
  Lease.parse_response (snd (non_dict_second 1)) = inr tt /\
  Lease.get_current_proxy Lease.sample_cfg 100 non_dict_second Lease.fresh
    = Lease.mkCall (inr tt) Lease.fresh 2%nat true.
Proof.
  assert (Hb : forall j, (j < 1)%nat -> Lease.parse_response (snd (non_dict_second j)) = inl None).
  { intros j Hj. destruct j; [reflexivity|lia]. }
  assert (Hk : (1 < Lease.sample_cfg.(Lease.max_retries))%nat) by (simpl; lia).
  split; [reflexivity|]. split; [reflexivity|]. split; [exact Hk|].
  split; [exact Hb|]. split; [reflexivity|].
  exact (LeaseMore.non_dict_answer_escapes Lease.sample_cfg 100 non_dict_second Lease.fresh 1
           eq_refl eq_refl Hk Hb eq_refl).
Defined.

(* ================================================================== *)
(** ** AutomatedCrawler and [_is_full_success] *)

Definition outcome_status (o : TargetOutcome) : Status :=
  match o with Crawled => COMPLETED | CrawlFailed _ => EXCEPTION end.

Lemma update_status_rows (now : Z) (u : string) (st : Status) (m : option string)
    (db : DB) (r' : AccountRow) :
  In r' (snd (update_account_status now u st m db)).(accounts) ->
  exists r, In r db.(accounts) /\ r'.(account_id) = r.(account_id) /\
            (r.(account_id) = u -> r'.(status) = st) /\
            (r.(account_id) <> u -> r' = r).
Proof.
  simpl. intros H. apply in_map_iff in H. destruct H as [r [<- Hr]].
  exists r. split; [exact Hr|].
  destruct (String.eqb_spec (account_id r) u) as [E|E]; simpl;
    (split; [reflexivity|split; intros; [reflexivity || contradiction|]]);
    [contradiction|reflexivity].
Qed.

Lemma update_status_keeps_ids (now : Z) (u : string) (st : Status) (m : option string)
    (db : DB) (r : AccountRow) :
  In r db.(accounts) ->
  exists r', In r' (snd (update_account_status now u st m db)).(accounts)
             /\ r'.(account_id) = r.(account_id).
Proof.
  intros H. simpl. eexists. split; [apply in_map; exact H|].
  destruct (String.eqb (account_id r) u); reflexivity.
Qed.

Lemma process_keeps_ids (now : Z) (d : DB) (p : Target * TargetOutcome) (r : AccountRow) :
  In r d.(accounts) ->
  exists r', In r' (process_target now d p).(accounts) /\ r'.(account_id) = r.(account_id).
Proof.
  intros H. unfold process_target, finish_target.
  destruct (update_status_keeps_ids now (t_url (fst p)) PROCESSING None d r H) as [r1 [H1 E1]].
  destruct (snd p);
    [destruct (update_status_keeps_ids now (t_url (fst p)) COMPLETED None _ r1 H1) as [r2 [H2 E2]]
    |destruct (update_status_keeps_ids now (t_url (fst p)) EXCEPTION (Some msg) _ r1 H1)
       as [r2 [H2 E2]]];
    exists r2; split; [exact H2|congruence| exact H2|congruence].
Qed.

Lemma fold_process_keeps_ids (now : Z) :
  forall (runs : list (Target * TargetOutcome)) (d : DB) (r : AccountRow),
    In r d.(accounts) ->
    exists r', In r' (fold_left (process_target now) runs d).(accounts)
               /\ r'.(account_id) = r.(account_id).
Proof.
  induction runs as [|p runs IH]; intros d r H; simpl; [eauto|].
  destruct (process_keeps_ids now d p r H) as [r1 [H1 E1]].
  destruct (IH _ r1 H1) as [r2 [H2 E2]]. exists r2. split; [exact H2|congruence].
Qed.

Lemma process_rows (now : Z) (d : DB) (p : Target * TargetOutcome) (r' : AccountRow) :
  In r' (process_target now d p).(accounts) ->
  (r'.(account_id) = (fst p).(t_url) -> r'.(status) = outcome_status (snd p)) /\
  (r'.(account_id) <> (fst p).(t_url) -> In r' d.(accounts)).
Proof.
  unfold process_target, finish_target. intros H.
  assert (G : forall st m d1, In r' (snd (update_account_status now (t_url (fst p)) st m d1)).(accounts) ->
                (forall r1, In r1 d1.(accounts) -> r1.(account_id) <> t_url (fst p) -> In r1 d.(accounts)) ->
                (r'.(account_id) = (fst p).(t_url) -> r'.(status) = st) /\
                (r'.(account_id) <> (fst p).(t_url) -> In r' d.(accounts))).
  { intros st m d1 H1 Hd1. destruct (update_status_rows _ _ _ _ _ _ H1) as [r1 [Hr1 [Ei [Hs Ho]]]].
    split.
    - intros Hid. apply Hs. congruence.
    - intros Hid. rewrite Ho by congruence. apply Hd1; [exact Hr1|congruence]. }
  assert (Hd1 : forall r1, In r1 (snd (update_account_status now (t_url (fst p)) PROCESSING None d)).(accounts) ->
                  r1.(account_id) <> t_url (fst p) -> In r1 d.(accounts)).
  { intros r1 Hr1 Hid. destruct (update_status_rows _ _ _ _ _ _ Hr1) as [r0 [Hr0 [Ei [_ Ho]]]].
    rewrite Ho by congruence. exact Hr0. }
  destruct (snd p); simpl; eapply G; eassumption.
Qed.

Lemma fold_process_rows_other (now : Z) :
  forall (runs : list (Target * TargetOutcome)) (d : DB) (r' : AccountRow),
    In r' (fold_left (process_target now) runs d).(accounts) ->
    ~ In r'.(account_id) (map (fun p => (fst p).(t_url)) runs) ->
    In r' d.(accounts).
Proof.
  induction runs as [|p runs IH]; intros d r' H Hn; simpl in *; [exact H|].
  apply (proj2 (process_rows now d p r' (IH _ r' H (fun Hi => Hn (or_intror Hi))))).
  intros E. apply Hn. left. congruence.
Qed.

Lemma fold_process_status (now : Z) :
  forall (runs : list (Target * TargetOutcome)) (d : DB),
    NoDup (map (fun p => (fst p).(t_url)) runs) ->
    forall p r, In p runs -> In r (fold_left (process_target now) runs d).(accounts) ->
      r.(account_id) = (fst p).(t_url) -> r.(status) = outcome_status (snd p).
Proof.
  induction runs as [|p0 runs IH]; intros d Hnd p r Hp Hr Hid; [destruct Hp|].
  simpl in Hnd. inversion Hnd as [|x xs Hnin Hnd']; subst. simpl in Hr.
  destruct Hp as [<-|Hp].
  - apply (proj1 (process_rows now d p0 r
             (fold_process_rows_other now runs _ r Hr ltac:(rewrite Hid; exact Hnin)))).
    exact Hid.
  - exact (IH _ Hnd' p r Hp Hr Hid).
Qed.

Lemma init_fold_has (dflt : ColumnDefaults) (now : Z) :
  forall (runs : list (Target * TargetOutcome)) (d : DB),
    (forall r, In r d.(accounts) ->
       In r (fold_left (fun d p => snd (initialize_account_status dflt now
                                          (fst p).(t_url) (fst p).(t_name) d)) runs d).(accounts)) /\
    (forall p, In p runs -> exists r,
       In r (fold_left (fun d p => snd (initialize_account_status dflt now
                                          (fst p).(t_url) (fst p).(t_name) d)) runs d).(accounts)
       /\ r.(account_id) = (fst p).(t_url)).
Proof.
  assert (Keep : forall u n d r, In r d.(accounts) ->
                   In r (snd (initialize_account_status dflt now u n d)).(accounts)).
  { intros u n d r H. unfold initialize_account_status.
    destruct (existsb _ _); simpl; [exact H|apply in_or_app; left; exact H]. }
  induction runs as [|p runs IH]; intros d; simpl; [split; [auto|intros p []]|].
  destruct (IH (snd (initialize_account_status dflt now (t_url (fst p)) (t_name (fst p)) d)))
    as [K H]. split.
  - intros r Hr. apply K. apply Keep. exact Hr.
  - intros p' [<-|Hp']; [|apply H; exact Hp'].
    assert (E : exists r, In r (snd (initialize_account_status dflt now (t_url (fst p))
                                       (t_name (fst p)) d)).(accounts)
                          /\ r.(account_id) = t_url (fst p)).
    { unfold initialize_account_status.
      destruct (existsb (fun r => String.eqb (account_id r) (t_url (fst p))) (accounts d)) eqn:Ex.
      - apply existsb_exists in Ex. destruct Ex as [r [Hr Hid]].
        apply String.eqb_eq in Hid. eauto.
      - simpl. eexists. split; [apply in_or_app; right; left; reflexivity|reflexivity]. }
    destruct E as [r [Hr Hid]]. exists r. split; [apply K; exact Hr|exact Hid].
Qed.

Lemma attempted_ids_nonempty (runs : list (Target * TargetOutcome)) :
  Forall (fun p => (fst p).(t_url) <> "") runs ->
  attempted_ids (map (fun p => {| a_id := (fst p).(t_url); a_name := (fst p).(t_name) |}) runs)
  = map (fun p => (fst p).(t_url)) runs.
Proof.
  unfold attempted_ids. rewrite map_map. simpl.
  induction 1 as [|p l Hp _ IH]; simpl; [reflexivity|].
  rewrite string_eqb_neq by exact Hp. simpl. f_equal. exact IH.
Qed.

(** [AutomatedCrawler.run] seen by [_is_full_success]: for a non-empty
    list of distinct, non-empty target URLs, [_is_full_success] over the
    targets, read after the run, holds exactly when every target ended
    COMPLETED, whatever rows the store held before the run. *)
Theorem automated_run_full_success (dflt : ColumnDefaults) (now : Z)
    (runs : list (Target * TargetOutcome)) (db : DB)
    (Hne : runs <> [])
    (Hnd : NoDup (map (fun p => (fst p).(t_url)) runs))
    (Hu : Forall (fun p => (fst p).(t_url) <> "") runs) :
  is_full_success
    (map (fun p => {| a_id := (fst p).(t_url); a_name := (fst p).(t_name) |}) runs)
    (snd (automated_run dflt now runs db)).(accounts) = true
  <-> Forall (fun p => snd p = Crawled) runs.
Proof.
  rewrite is_full_success_spec, attempted_ids_nonempty by exact Hu.
  assert (Hsnd : snd (automated_run dflt now runs db)
                 = fold_left (process_target now) runs
                     (fold_left (fun d p => snd (initialize_account_status dflt now
                                                  (fst p).(t_url) (fst p).(t_name) d)) runs db))
    by (destruct runs; [contradiction|reflexivity]).
  rewrite Hsnd.
  set (db1 := fold_left (fun d p => snd (initialize_account_status dflt now
                                          (fst p).(t_url) (fst p).(t_name) d)) runs db).
  assert (Has : forall p, In p runs -> exists r,
                  In r (fold_left (process_target now) runs db1).(accounts)
                  /\ r.(account_id) = (fst p).(t_url)).
  { intros p Hp. destruct (proj2 (init_fold_has dflt now runs db) p Hp) as [r [Hr Hid]].
    destruct (fold_process_keeps_ids now runs db1 r Hr) as [r' [Hr' Hid']].
    exists r'. split; [exact Hr'|congruence]. }
  pose proof (fold_process_status now runs db1 Hnd) as Hst.
  split.
  - intros [_ Hall]. apply Forall_forall. intros p Hp.
    destruct (Has p Hp) as [r [Hr Hid]].
    assert (C : status r = COMPLETED).
    { apply Hall; [exact Hr|]. rewrite Hid. exact (in_map (fun p => t_url (fst p)) runs p Hp). }
    rewrite (Hst p r Hp Hr Hid) in C. destruct (snd p); [reflexivity|discriminate C].
  - intros Hall. split.
    + destruct runs as [|p rs]; [contradiction|].
      destruct (Has p (or_introl eq_refl)) as [r [Hr Hid]].
      exists r. split; [exact Hr|]. rewrite Hid. left. reflexivity.
    + intros r Hr Hin. apply in_map_iff in Hin. destruct Hin as [p [Hid Hp]].
      rewrite (Hst p r Hp Hr (eq_sym Hid)).
      rewrite Forall_forall in Hall. rewrite (Hall p Hp). reflexivity.
Qed.

Definition sample_defaults : ColumnDefaults :=
  {| default_priority := 0; default_consecutive_failures := Some 0 |}.

Definition sample_runs : list (Target * TargetOutcome) :=
  [({| t_url := "https://mp.weixin.qq.com/s/a"; t_name := "A" |}, Crawled);
   ({| t_url := "https://mp.weixin.qq.com/s/b"; t_name := "B" |}, CrawlFailed "timeout")].

Lemma automated_run_full_success_witness :
  sample_runs <> [] /\
  NoDup (map (fun p => (fst p).(t_url)) sample_runs) /\
  Forall (fun p => (fst p).(t_url) <> "") sample_runs /\
  (is_full_success
     (map (fun p => {| a_id := (fst p).(t_url); a_name := (fst p).(t_name) |}) sample_runs)
     (snd (automated_run sample_defaults sample_now sample_runs
             {| accounts := []; history := []; ledger := [] |})).(accounts) = true
   <-> Forall (fun p => snd p = Crawled) sample_runs).
Proof.
  assert (Hne : sample_runs <> []) by discriminate.
  assert (Hnd : NoDup (map (fun p => (fst p).(t_url)) sample_runs)).
  { simpl. constructor; [intros [H|[]]; discriminate H|].
    constructor; [intros []|constructor]. }
  assert (Hu : Forall (fun p => (fst p).(t_url) <> "") sample_runs).
  { repeat constructor; discriminate. }
  split; [exact Hne|]. split; [exact Hnd|]. split; [exact Hu|].
  exact (automated_run_full_success sample_defaults sample_now sample_runs
           {| accounts := []; history := []; ledger := [] |} Hne Hnd Hu).
Defined.

(* ================================================================== *)
(** ** [get_all_accounts_by_status] after the reset *)



(* ================================================================== *)
(** ** [set_next_retry_time] and the next reset *)

(** [set_next_retry_time] followed by the next round's reset: with no row
    for the account it reports failure and writes nothing.  Otherwise the
    account is PENDING after the reset, and the retry time survives the
    reset exactly when the account was already PENDING (the reset's
    UPDATE skips PENDING rows). *)
Theorem set_next_retry_time_then_reset :
  forall (now now' t : Z) (id : string) (db : DB),
    let db1 := snd (set_next_retry_time now id t db) in
    let db2 := snd (reset_all_accounts_to_pending now' db1) in
    match get_account_status id db.(accounts) with
    | None => set_next_retry_time now id t db = (false, db)
    | Some r =>
        exists r2,
          get_account_status id db2.(accounts) = Some r2 /\
          r2.(status) = PENDING /\
          r2.(next_retry_time) = (if status_eqb r.(status) PENDING then Some t else None)
    end.
Proof.
  intros now now' t id db db1 db2.
  destruct (update_where_id_spec id
              (fun r => {| account_id := r.(account_id); account_name := r.(account_name);
                           status := r.(status); retry_count := r.(retry_count);
                           last_exception_msg := r.(last_exception_msg);
                           next_retry_time := Some t;
                           compensation_priority := r.(compensation_priority);
                           consecutive_failures := r.(consecutive_failures);
                           last_failed_date := r.(last_failed_date);
                           failed_reason_backup := r.(failed_reason_backup);
                           last_update_time := r.(last_update_time); update_time := now |})
              db (fun r => eq_refl)) as [Hb [Hn [Hg _]]].
  destruct (get_account_status id (accounts db)) as [r|] eqn:E.
  - unfold db2. rewrite reset_get. unfold db1, set_next_retry_time. rewrite Hg. simpl.
    eexists. split; [reflexivity|].
    unfold reset_row. destruct (status r); split; reflexivity.
  - unfold set_next_retry_time.
    rewrite (surjective_pairing (update_where_id _ _ db)), Hb, Hn by reflexivity.
    reflexivity.
Qed.
